(** * dexie-export-import: the chunked import loop of [import.ts]

    A shallow embedding of [src/addons/dexie-export-import/src/import.ts]:
    the header validation of [loadUntilWeGotEnoughData], the global checks
    and the progress protocol of [importInto], and the [importAll] loop that
    drains the row buffers shared with the streaming parser.

    JavaScript objects whose fields may be absent are records of [option]s;
    the errors the code throws are an inductive type; the shared, mutable
    state (the parsed envelope, the progress object, the target database)
    is threaded explicitly through a state-and-error monad that keeps the
    state when an error is thrown. *)

From Stdlib Require Import String Ascii ZArith List Bool Lia.
Import ListNotations.
Local Open Scope string_scope.
Local Open Scope Z_scope.
Local Open Scope list_scope.

(** ** JavaScript values *)

(** Row payloads as they come out of JSON: numbers, strings, arrays and
    objects; [JUndefined] is what reading an absent index yields. *)
#[warnings="-register-all"]
Inductive jsval : Type :=
| JUndefined
| JNum (n : Z)
| JStr (s : string)
| JArr (elems : list jsval)
| JObj (fields : list (string * jsval)).

(** [row[i]] on a revived row.  The rows of a non-inbound table are the
    two-element arrays [[key, value]] of the export format, for which
    indexing and the destructuring pattern [([key, value])] agree. *)
Definition js_index (row : jsval) (i : nat) : jsval :=
  match row with
  | JArr elems => nth i elems JUndefined
  | _ => JUndefined
  end.

(** A JavaScript array together with the expando property [complete] that
    the parser puts on a row buffer.  An absent property reads [undefined],
    which is falsy: [false] here. *)
Record JsArray : Type := mkArray {
  items : list jsval;
  complete : bool
}.

(** [Array.prototype.map] builds a fresh array: the elements are mapped,
    expando properties of the receiver are not carried over. *)
Definition js_map (f : jsval -> jsval) (a : JsArray) : JsArray :=
  {| items := map f (items a); complete := false |}.

(** [Array.prototype.filter], likewise a fresh array. *)
Definition js_filter (p : jsval -> bool) (a : JsArray) : JsArray :=
  {| items := filter p (items a); complete := false |}.

(** [a.splice(0, a.length)]: empties the receiver in place and keeps its
    other properties. *)
Definition js_splice_all (a : JsArray) : JsArray :=
  {| items := []; complete := complete a |}.

(** ** The export envelope (json-structure) *)

Record TableSchema : Type := mkSchema {
  name : string;
  schema : string;
  rowCount : Z
}.

Record TableExport : Type := mkTableExport {
  tableName : string;
  inbound : bool;
  rows : option JsArray      (* [undefined] until the parser reaches it *)
}.

Record DatabaseExport : Type := mkExport {
  databaseName : option string;
  databaseVersion : option Z;
  tables : option (list TableSchema);
  data : option (list TableExport)
}.

(** The top-level object; its [data] field is [envData] here, the name
    [data] being taken by the table queue inside it. *)
Record Envelope : Type := mkEnvelope {
  formatName : option string;
  formatVersion : option Z;
  envData : option DatabaseExport
}.

Definition emptyExport : DatabaseExport :=
  {| databaseName := None; databaseVersion := None; tables := None; data := None |}.

Definition emptyEnvelope : Envelope :=
  {| formatName := None; formatVersion := None; envData := None |}.

(** ** Errors

    The code throws plain [Error] objects; the constructors carry the names
    of the specification's taxonomy, one per [throw] site:
    - [FormatError]: "Given file is not a dexie export";
    - [UnsupportedVersionError]: "Format version ... not supported";
    - [MalformedExportError f]: "No data in export file" ([f = "data"]) and
      "Missing f in export file";
    - [NameMismatchError]: "Name differs. ...";
    - [VersionMismatchError]: "Database version differs. ...";
    - [MissingTableError t]: "Exported table t is missing in installed database";
    - [PrimaryKeyMismatchError t]: "Primary key differs for table t.";
    - [AbortedError]: "Operation aborted".
    [TypeError] is the runtime's own error for a property read on
    [undefined]; [StorageError] is whatever the storage engine rejects. *)
Inductive Error : Type :=
| FormatError
| UnsupportedVersionError (v : Z)
| MalformedExportError (field : string)
| NameMismatchError
| VersionMismatchError
| MissingTableError (t : string)
| PrimaryKeyMismatchError (t : string)
| AbortedError
| TypeError (what : string)
| StorageError (what : string).

Definition Res (A : Type) : Type := (Error + A)%type.

(** ** The streaming parser (json-stream) *)

(** Modelled from the spec: the streaming parser is the module
    [json-stream.ts], of which [import.ts] holds only the interface.  The
    specification describes it as [pull(byteBudget)] appending newly parsed structure to a mutable,
    growable [result], with [done()] (no more pulls will ever be needed) and
    [eof()] (source exhausted).  A blob is the list of its slices; a slice is
    the list of structural events the parser meets in it, each of which
    extends the envelope in place. *)
Inductive ParseEvent : Type :=
| SetFormatName (s : string)
| SetFormatVersion (v : Z)
| OpenExport                                  (* result.data = {} *)
| SetDatabaseName (s : string)
| SetDatabaseVersion (v : Z)
| OpenTables                                  (* data.tables = [] *)
| PushTableSchema (t : TableSchema)
| OpenQueue                                   (* data.data = [] *)
| OpenTable (tableName : string) (inbound : bool)
| OpenRows                                    (* last.rows = [] *)
| PushRow (r : jsval)
| CloseRows                                   (* last.rows.complete = true *)
| CloseRoot.

Definition Chunk : Type := list ParseEvent.

Fixpoint updLast {A : Type} (f : A -> A) (l : list A) : list A :=
  match l with
  | [] => []
  | [x] => [f x]
  | x :: rest => x :: updLast f rest
  end.

Definition withRows (f : option JsArray -> option JsArray) (t : TableExport) : TableExport :=
  {| tableName := tableName t; inbound := inbound t; rows := f (rows t) |}.

Definition withData (f : option (list TableExport) -> option (list TableExport))
    (d : DatabaseExport) : DatabaseExport :=
  {| databaseName := databaseName d; databaseVersion := databaseVersion d;
     tables := tables d; data := f (data d) |}.

Definition applyToExport (ev : ParseEvent) (d : DatabaseExport) : DatabaseExport :=
  match ev with
  | SetDatabaseName s =>
      {| databaseName := Some s; databaseVersion := databaseVersion d;
         tables := tables d; data := data d |}
  | SetDatabaseVersion v =>
      {| databaseName := databaseName d; databaseVersion := Some v;
         tables := tables d; data := data d |}
  | OpenTables =>
      {| databaseName := databaseName d; databaseVersion := databaseVersion d;
         tables := Some []; data := data d |}
  | PushTableSchema t =>
      {| databaseName := databaseName d; databaseVersion := databaseVersion d;
         tables := option_map (fun l => l ++ [t]) (tables d); data := data d |}
  | OpenQueue => withData (fun _ => Some []) d
  | OpenTable n i =>
      withData (option_map (fun q => q ++ [mkTableExport n i None])) d
  | OpenRows =>
      withData (option_map (updLast (withRows (fun _ => Some (mkArray [] false))))) d
  | PushRow r =>
      withData (option_map (updLast (withRows
        (option_map (fun a => mkArray (items a ++ [r]) (complete a)))))) d
  | CloseRows =>
      withData (option_map (updLast (withRows
        (option_map (fun a => mkArray (items a) true))))) d
  | _ => d
  end.

Definition applyEvent (ev : ParseEvent) (e : Envelope) : Envelope :=
  match ev with
  | SetFormatName s =>
      {| formatName := Some s; formatVersion := formatVersion e; envData := envData e |}
  | SetFormatVersion v =>
      {| formatName := formatName e; formatVersion := Some v; envData := envData e |}
  | OpenExport =>
      {| formatName := formatName e; formatVersion := formatVersion e;
         envData := Some emptyExport |}
  | CloseRoot => e
  | _ =>
      {| formatName := formatName e; formatVersion := formatVersion e;
         envData := option_map (applyToExport ev) (envData e) |}
  end.

Definition closesRoot (ev : ParseEvent) : bool :=
  match ev with CloseRoot => true | _ => false end.

Record JsonStream : Type := mkStream {
  result : Envelope;         (* the currently parsed structure *)
  pending : list Chunk;      (* slices of the blob not read yet *)
  parserDone : bool          (* the root value has been closed *)
}.

(** [JsonStream(blob)]: nothing parsed yet. *)
Definition JsonStreamOf (blob : list Chunk) : JsonStream :=
  {| result := emptyEnvelope; pending := blob; parserDone := false |}.

Definition done (s : JsonStream) : bool := parserDone s.

Definition eof (s : JsonStream) : bool :=
  match pending s with [] => true | _ => false end.

(** [stream.pull(numBytes)].  The blob is already cut at the byte budget,
    so the budget only names the slice; past the end nothing is parsed. *)
Definition pull (s : JsonStream) (numBytes : Z) : JsonStream :=
  match pending s with
  | [] => s
  | c :: rest =>
      {| result := fold_left (fun e ev => applyEvent ev e) c (result s);
         pending := rest;
         parserDone := parserDone s || existsb closesRoot c |}
  end.

(** The two shapes [importInto] accepts. *)
Inductive ExportedData : Type :=
| Blob (slices : list Chunk)
| Stream (s : JsonStream).

(** ** loadUntilWeGotEnoughData *)

(** JavaScript truthiness of an optional string and of an optional number. *)
Definition truthyStr (o : option string) : bool :=
  match o with
  | Some s => negb (s =? "")%string
  | None => false
  end.

Definition truthyNum (o : option Z) : bool :=
  match o with
  | Some n => negb (n =? 0)
  | None => false
  end.

Definition isSome {A : Type} (o : option A) : bool :=
  match o with Some _ => true | None => false end.

(** [!stream.result.data || !stream.result.data.data] *)
Definition headerPending (s : JsonStream) : bool :=
  match envData (result s) with
  | None => true
  | Some d => negb (isSome (data d))
  end.

(** The [while] loop of the loader; every turn consumes one slice. *)
Fixpoint loadLoop (fuel : nat) (s : JsonStream) (CHUNK_SIZE : Z) : JsonStream :=
  if negb (eof s) && headerPending s then
    match fuel with
    | O => s
    | S fuel' => loadLoop fuel' (pull s CHUNK_SIZE) CHUNK_SIZE
    end
  else s.

(** The checks that follow the loop, in the order of the source. *)
Definition validateHeader (VERSION : Z) (dbExportFile : Envelope) : Res unit :=
  if negb (match formatName dbExportFile with
           | Some f => (f =? "dexie")%string
           | None => false
           end)
  then inl FormatError
  else if (match formatVersion dbExportFile with
           | Some v => VERSION <? v
           | None => false          (* undefined > VERSION is false *)
           end)
  then inl (UnsupportedVersionError
              (match formatVersion dbExportFile with Some v => v | None => 0 end))
  else match envData dbExportFile with
       | None => inl (MalformedExportError "data")
       | Some d =>
           if negb (truthyStr (databaseName d))
           then inl (MalformedExportError "databaseName")
           else if negb (truthyNum (databaseVersion d))
           then inl (MalformedExportError "databaseVersion")
           else if negb (isSome (tables d))
           then inl (MalformedExportError "tables")
           else inr tt
       end.

Definition toStream (exportedData : ExportedData) : JsonStream :=
  match exportedData with
  | Blob slices => JsonStreamOf slices
  | Stream s => s
  end.

(** The stream after the loader's pulls, whatever the checks then say. *)
Definition loadedStream (exportedData : ExportedData) (CHUNK_SIZE : Z) : JsonStream :=
  let stream := toStream exportedData in
  loadLoop (length (pending stream)) stream CHUNK_SIZE.

Definition loadUntilWeGotEnoughData (VERSION : Z) (exportedData : ExportedData)
    (CHUNK_SIZE : Z) : Res JsonStream :=
  let stream := loadedStream exportedData CHUNK_SIZE in
  match validateHeader VERSION (result stream) with
  | inl e => inl e
  | inr _ => inr stream
  end.

(** ** Collaborators imported by [import.ts] *)

(** A table handle as [db.table(name)] gives it: the code reads its
    [schema.primKey.src] and calls [clear], [bulkAdd] and [bulkPut] on it. *)
Record Table : Type := mkTable {
  tableId : string;
  primKeySrc : string
}.

(** What the module imports and does not define: [VERSION] of
    json-structure, [TSON.revive], and the [Dexie] database with its tables.
    The storage operations act on the database state [DB] and may reject.
    [db.table(name)] returns the table, or throws (Dexie's InvalidTableError)
    when the database has no table of that name: [inl] is the throw and
    [inr (Some t)] the table.  [inr None] stands for a falsy value, which is
    what the guard [if (!table)] of [importAll] tests for; a table handle is
    an object, so Dexie never returns one ([db_table_truthy]). *)
Class Collaborators (DB : Type) : Type := {
  VERSION : Z;
  revive : jsval -> jsval;
  db_name : DB -> string;
  db_verno : DB -> Z;
  db_table : DB -> string -> Res (option Table);
  db_table_truthy : forall d n, db_table d n <> inr None;
  table_clear : Table -> DB -> Res DB;
  table_bulkAdd : Table -> list jsval -> option (list jsval) -> DB -> Res DB;
  table_bulkPut : Table -> list jsval -> option (list jsval) -> DB -> Res DB
}.

(** ** Options and progress *)

Record ImportProgress : Type := mkProgress {
  totalTables : Z;
  completedTables : Z;
  totalRows : option Z;
  completedRows : Z;
  isDone : bool                    (* the field [done] *)
}.

(** [ImportOptions].  The observer may keep state of its own between
    invocations: it is given the number of invocations that came before. *)
Record ImportOptions : Type := mkOptions {
  acceptMissingTables : bool;
  acceptVersionDiff : bool;
  acceptNameDiff : bool;
  acceptChangedPrimaryKey : bool;
  overwriteValues : bool;
  clearTablesBeforeImport : bool;
  noTransaction : bool;
  numKilobytesPerChunk : option Z;
  rowFilter : option (string -> jsval -> option jsval -> bool);   (* [filter] *)
  progressCallback : option (nat -> ImportProgress -> bool)
}.

(** All booleans default to false. *)
Definition defaultOptions : ImportOptions :=
  {| acceptMissingTables := false; acceptVersionDiff := false;
     acceptNameDiff := false; acceptChangedPrimaryKey := false;
     overwriteValues := false; clearTablesBeforeImport := false;
     noTransaction := false; numKilobytesPerChunk := None;
     rowFilter := None; progressCallback := None |}.

(** [(options.numKilobytesPerChunk || 512) * 1024] *)
Definition chunkSize (options : ImportOptions) : Z :=
  (if truthyNum (numKilobytesPerChunk options)
   then match numKilobytesPerChunk options with Some k => k | None => 512 end
   else 512) * 1024.

(** ** The state of a run *)

(** One call of [bulkAdd] or [bulkPut], as handed to the storage engine. *)
Record WriteCall : Type := mkWrite {
  target : string;
  overwrite : bool;
  values : list jsval;
  keys : option (list jsval)
}.

Record World (DB : Type) : Type := mkWorld {
  jsonStream : JsonStream;                   (* owns the shared envelope *)
  progress : ImportProgress;
  db : DB;
  observed : list (ImportProgress * bool);   (* snapshots shown to the observer
                                                and its answers, latest first *)
  written : list WriteCall                   (* bulk writes issued, latest first *)
}.

Arguments mkWorld {DB}.
Arguments jsonStream {DB}.
Arguments progress {DB}.
Arguments db {DB}.
Arguments observed {DB}.
Arguments written {DB}.

(** [const dbExport = dbExportFile.data!]: the object shared with the
    parser.  The loader has checked that it is there. *)
Definition dbExportOf (s : JsonStream) : DatabaseExport :=
  match envData (result s) with
  | Some d => d
  | None => emptyExport
  end.

Definition setQueue (q : list TableExport) (s : JsonStream) : JsonStream :=
  {| result :=
       {| formatName := formatName (result s);
          formatVersion := formatVersion (result s);
          envData := Some (withData (fun _ => Some q) (dbExportOf s)) |};
     pending := pending s;
     parserDone := parserDone s |}.

(** ** A state monad that keeps the state on failure *)

Definition M (DB A : Type) : Type := World DB -> Res A * World DB.

Definition ret {DB A : Type} (a : A) : M DB A := fun w => (inr a, w).

Definition throw {DB A : Type} (e : Error) : M DB A := fun w => (inl e, w).

Definition bind {DB A B : Type} (m : M DB A) (k : A -> M DB B) : M DB B :=
  fun w =>
    match m w with
    | (inl e, w') => (inl e, w')
    | (inr a, w') => k a w'
    end.

Declare Scope import_scope.
Delimit Scope import_scope with import.
Notation "x <- m ;; k" := (bind m (fun x => k))
  (at level 61, m at next level, right associativity) : import_scope.
Notation "m ;; k" := (bind m (fun _ => k))
  (at level 61, right associativity) : import_scope.
Local Open Scope import_scope.

Definition getWorld {DB : Type} : M DB (World DB) := fun w => (inr w, w).

Definition when {DB : Type} (b : bool) (m : M DB unit) : M DB unit :=
  if b then m else ret tt.

(** [tableSchemaStr.split(',')[0]] *)
Fixpoint beforeComma (s : string) : string :=
  match s with
  | EmptyString => EmptyString
  | String c rest => if Ascii.eqb c "," then EmptyString else String c (beforeComma rest)
  end.

(** [dbExport.tables.filter(t => t.name === tableName)[0].schema]: reading
    [.schema] of [undefined] is a TypeError. *)
Definition schemaOf (dbExport : DatabaseExport) (tableName : string) : Res string :=
  match tables dbExport with
  | None => inl (TypeError "filter")
  | Some ts =>
      match filter (fun t => (name t =? tableName)%string) ts with
      | [] => inl (TypeError "schema")
      | t :: _ => inr (schema t)
      end
  end.

(** The rows that pass the filter, lines 105-110. *)
Definition filteredRowsOf (options : ImportOptions) (tableExport : TableExport)
    (rows : JsArray) : JsArray :=
  match rowFilter options with
  | Some filter =>
      if inbound tableExport
      then js_filter (fun value => filter (tableName tableExport) value None) rows
      else js_filter (fun row => filter (tableName tableExport)
                                   (js_index row 1) (Some (js_index row 0))) rows
  | None => rows
  end.

(** [const [keys, values] = ...], lines 111-113. *)
Definition keysAndValues (tableExport : TableExport) (rows filteredRows : JsArray)
    : option (list jsval) * list jsval :=
  if inbound tableExport
  then (None, items filteredRows)
  else (Some (map (fun row => js_index row 0) (items filteredRows)),
        map (fun row => js_index row 1) (items rows)).

(** The progress object at its creation, lines 62-68. *)
Definition initialProgress (ts : list TableSchema) : ImportProgress :=
  {| isDone := false;
     completedRows := 0;
     completedTables := 0;
     totalRows := Some (fold_left (fun p c => p + rowCount c) ts 0);
     totalTables := Z.of_nat (length ts) |}.

(** What a turn of [for (const tableExport of dbExport.data)] ends in. *)
Inductive Flow : Type := Continue | Break.

(** The [while] loop of lines 131-134 on the queue: the error, if any, and
    the queue it leaves.  Reading [.complete] of absent [rows] is a
    TypeError. *)
Fixpoint dropCompleted (q : list TableExport) : Res unit * list TableExport :=
  match q with
  | [] => (inr tt, [])
  | first :: rest =>
      match rows first with
      | None => (inl (TypeError "complete"), q)
      | Some buf => if complete buf then dropCompleted rest else (inr tt, q)
      end
  end.

Section ImportLoop.

Context {DB : Type} `{Collaborators DB}.

Definition setProgress (p : ImportProgress) (w : World DB) : World DB :=
  {| jsonStream := jsonStream w; progress := p; db := db w;
     observed := observed w; written := written w |}.

Definition setDb (d : DB) (w : World DB) : World DB :=
  {| jsonStream := jsonStream w; progress := progress w; db := d;
     observed := observed w; written := written w |}.

Definition setStream (s : JsonStream) (w : World DB) : World DB :=
  {| jsonStream := s; progress := progress w; db := db w;
     observed := observed w; written := written w |}.

(** [if (progressCallback) { if (progressCallback(progress)) throw ... }] *)
Definition notify (options : ImportOptions) : M DB unit :=
  fun w =>
    match progressCallback options with
    | None => (inr tt, w)
    | Some callback =>
        let answer := callback (length (observed w)) (progress w) in
        let w' := {| jsonStream := jsonStream w; progress := progress w; db := db w;
                     observed := (progress w, answer) :: observed w;
                     written := written w |} in
        if answer then (inl AbortedError, w') else (inr tt, w')
    end.

(** A storage operation on the target database. *)
Definition storage (op : DB -> Res DB) : M DB unit :=
  fun w =>
    match op (db w) with
    | inl e => (inl e, w)
    | inr d => (inr tt, setDb d w)
    end.

Definition bulkWrite (options : ImportOptions) (table : Table)
    (values : list jsval) (keys : option (list jsval)) : M DB unit :=
  fun w =>
    let call := {| target := tableId table; overwrite := overwriteValues options;
                   values := values; keys := keys |} in
    let w' := {| jsonStream := jsonStream w; progress := progress w; db := db w;
                 observed := observed w; written := call :: written w |} in
    if overwriteValues options
    then storage (table_bulkPut table values keys) w'
    else storage (table_bulkAdd table values keys) w'.

(** Lines 123-126, on the array [rows] of line 104. *)
Definition advance (rows : JsArray) : M DB unit :=
  fun w =>
    let p := progress w in
    (inr tt,
     setProgress
       {| totalTables := totalTables p;
          completedTables :=
            if complete rows then completedTables p + 1 else completedTables p;
          totalRows := totalRows p;
          completedRows := completedRows p + Z.of_nat (length (items rows));
          isDone := isDone p |} w).

(** The body of the [for] loop, lines 83-127, for one queue entry. *)
Definition importTable (options : ImportOptions) (tableExport : TableExport)
    : M DB Flow :=
  match rows tableExport with
  | None => ret Break                                   (* need to pull more *)
  | Some buffer =>
      if complete buffer && (length (items buffer) =? 0)%nat
      then ret Continue
      else
        notify options ;;
        w <- getWorld ;;
        match db_table (db w) (tableName tableExport) with
        | inl e => throw e                     (* [db.table] throws, line 92 *)
        | inr table =>
            match schemaOf (dbExportOf (jsonStream w)) (tableName tableExport) with
            | inl e => throw e
            | inr tableSchemaStr =>
                match table with
                | None =>
                    if negb (acceptMissingTables options)
                    then throw (MissingTableError (tableName tableExport))
                    else ret Continue
                | Some table =>
                    if negb (acceptChangedPrimaryKey options)
                       && negb (beforeComma tableSchemaStr =? primKeySrc table)%string
                    then throw (PrimaryKeyMismatchError (tableName tableExport))
                    else
                      let rows := js_map revive buffer in
                      let filteredRows := filteredRowsOf options tableExport rows in
                      let (keys, values) :=
                        keysAndValues tableExport rows filteredRows in
                      when (clearTablesBeforeImport options)
                           (storage (table_clear table)) ;;
                      bulkWrite options table values keys ;;
                      advance rows ;;
                      (* [rows.splice(0, rows.length)] empties the array of
                         line 104, which nothing else refers to. *)
                      let rows := js_splice_all rows in
                      ret Continue
                end
            end
        end
  end.

Fixpoint forEachTable (options : ImportOptions) (q : list TableExport) : M DB unit :=
  match q with
  | [] => ret tt
  | tableExport :: rest =>
      flow <- importTable options tableExport ;;
      match flow with
      | Break => ret tt
      | Continue => forEachTable options rest
      end
  end.

(** [for (const tableExport of dbExport.data)]: iterating [undefined] is a
    TypeError. *)
Definition innerPass (options : ImportOptions) : M DB unit :=
  w <- getWorld ;;
  match data (dbExportOf (jsonStream w)) with
  | None => throw (TypeError "iterator")
  | Some q => forEachTable options q
  end.

(** Lines 131-134 on the shared queue. *)
Definition dropLeading : M DB unit :=
  fun w =>
    match data (dbExportOf (jsonStream w)) with
    | None => (inl (TypeError "length"), w)
    | Some q =>
        let (r, q') := dropCompleted q in
        (r, setStream (setQueue q' (jsonStream w)) w)
    end.

(** [!jsonStream.done() && !jsonStream.eof()] *)
Definition streamOpen : M DB bool :=
  fun w => (inr (negb (done (jsonStream w)) && negb (eof (jsonStream w))), w).

(** [await Dexie.waitFor(jsonStream.pull(CHUNK_SIZE))] *)
Definition pullMore (options : ImportOptions) : M DB unit :=
  fun w => (inr tt, setStream (pull (jsonStream w) (chunkSize options)) w).

(** One turn of the [do ... while] of [importAll], lines 82-139: the body,
    then the loop condition. *)
Definition turn (options : ImportOptions) : M DB bool :=
  innerPass options ;;
  dropLeading ;;
  more <- streamOpen ;;
  when more (pullMore options) ;;
  streamOpen.

(** The [do ... while] itself.  A turn is followed by another only after it
    has pulled a slice, so the number of pending slices bounds the turns:
    [fuel] is never used up (lemma [importAllLoop_fuel]). *)
Fixpoint importAllLoop (options : ImportOptions) (fuel : nat) : M DB unit :=
  again <- turn options ;;
  if again
  then match fuel with
       | O => ret tt
       | S fuel' => importAllLoop options fuel'
       end
  else ret tt.

Definition importAll (options : ImportOptions) : M DB unit :=
  fun w => importAllLoop options (length (pending (jsonStream w))) w.

(** Modelled from the spec: [db.transaction('rw', db.tables, body)] belongs
    to Dexie, of which [import.ts] holds only the interface.  The
    specification has it execute the body atomically: any error raised in the body rolls
    back every write the body made. *)
Definition transaction (body : M DB unit) : M DB unit :=
  fun w =>
    match body w with
    | (inl e, w') => (inl e, setDb (db w) w')
    | (inr tt, w') => (inr tt, w')
    end.

Definition markDone : M DB unit :=
  fun w =>
    let p := progress w in
    (inr tt,
     setProgress
       {| totalTables := totalTables p; completedTables := completedTables p;
          totalRows := totalRows p; completedRows := completedRows p;
          isDone := true |} w).

(** The state [importInto] starts from once the loader has returned; the
    progress object is created at line 62. *)
Definition startWorld (d : DB) (s : JsonStream) : World DB :=
  {| jsonStream := s; progress := initialProgress []; db := d;
     observed := []; written := [] |}.

Definition importInto (d : DB) (exportedData : ExportedData)
    (options : ImportOptions) : Res unit * World DB :=
  let CHUNK_SIZE := chunkSize options in
  let w0 := startWorld d (loadedStream exportedData CHUNK_SIZE) in
  match loadUntilWeGotEnoughData VERSION exportedData CHUNK_SIZE with
  | inl e => (inl e, w0)
  | inr jsonStream =>
      let dbExport := dbExportOf jsonStream in
      if negb (acceptNameDiff options)
         && negb (match databaseName dbExport with
                  | Some n => (db_name d =? n)%string
                  | None => false
                  end)
      then (inl NameMismatchError, w0)
      else if negb (acceptVersionDiff options)
              && negb (match databaseVersion dbExport with
                       | Some v => db_verno d =? v
                       | None => false
                       end)
      then (inl VersionMismatchError, w0)
      else
        match tables dbExport with
        | None => (inl (TypeError "reduce"), w0)
        | Some ts =>
            (notify options ;;
             (if noTransaction options
              then importAll options
              else transaction (importAll options)) ;;
             markDone ;;
             notify options)
              (setProgress (initialProgress ts) w0)
        end
  end.

End ImportLoop.

(** ** A storage engine to run the import on *)

(** Structural equality of values, used to compare keys. *)
Fixpoint jsval_eqb (a b : jsval) {struct a} : bool :=
  match a, b with
  | JUndefined, JUndefined => true
  | JNum x, JNum y => x =? y
  | JStr x, JStr y => (x =? y)%string
  | JArr xs, JArr ys =>
      (fix all2 (xs ys : list jsval) {struct xs} : bool :=
         match xs, ys with
         | [], [] => true
         | x :: xs', y :: ys' => jsval_eqb x y && all2 xs' ys'
         | _, _ => false
         end) xs ys
  | JObj xs, JObj ys =>
      (fix all2 (xs ys : list (string * jsval)) {struct xs} : bool :=
         match xs, ys with
         | [], [] => true
         | (k, x) :: xs', (k', y) :: ys' =>
             (k =? k')%string && jsval_eqb x y && all2 xs' ys'
         | _, _ => false
         end) xs ys
  | _, _ => false
  end.

Module Memory.

(** Modelled from the spec: the storage engine is Dexie's, of which
    [import.ts] holds only the interface.  The specification gives per-table
    [clear()], [bulkAdd(values, keys?)] (fails on duplicate keys) and
    [bulkPut(values, keys?)] (overwrite), and access to the declared primary
    key.  A table is the list of its records in insertion order; without
    [keys] the key of a value is its property named by the primary key.  A
    key list that does not match the values in length is rejected. *)
Record Stored : Type := mkStored {
  handle : Table;
  records : list (jsval * jsval)          (* key, value *)
}.

Record Db : Type := mkDb {
  dbName : string;
  verno : Z;
  stores : list Stored
}.

(** [db.table(n)]: the table, or InvalidTableError when there is none. *)
Definition table (d : Db) (n : string) : Res (option Table) :=
  match filter (fun s => (tableId (handle s) =? n)%string) (stores d) with
  | s :: _ => inr (Some (handle s))
  | [] => inl (StorageError "InvalidTableError")
  end.

Lemma table_truthy (d : Db) (n : string) : table d n <> inr None.
Proof.
  unfold table. destruct (filter _ (stores d)); discriminate.
Qed.

Definition keyOf (t : Table) (value : jsval) : jsval :=
  match value with
  | JObj fields =>
      match filter (fun f => (fst f =? primKeySrc t)%string) fields with
      | f :: _ => snd f
      | [] => JUndefined
      end
  | _ => JUndefined
  end.

Definition entries (t : Table) (values : list jsval) (keys : option (list jsval))
    : Res (list (jsval * jsval)) :=
  match keys with
  | None => inr (map (fun v => (keyOf t v, v)) values)
  | Some ks =>
      if (length ks =? length values)%nat
      then inr (combine ks values)
      else inl (StorageError "InvalidArgument")
  end.

Definition hasKey (k : jsval) (rs : list (jsval * jsval)) : bool :=
  existsb (fun r => jsval_eqb (fst r) k) rs.

Fixpoint addAll (es rs : list (jsval * jsval)) : Res (list (jsval * jsval)) :=
  match es with
  | [] => inr rs
  | e :: es' =>
      if hasKey (fst e) rs
      then inl (StorageError "ConstraintError")
      else addAll es' (rs ++ [e])
  end.

Definition putOne (e : jsval * jsval) (rs : list (jsval * jsval)) : list (jsval * jsval) :=
  if hasKey (fst e) rs
  then map (fun r => if jsval_eqb (fst r) (fst e) then e else r) rs
  else rs ++ [e].

Definition putAll (es rs : list (jsval * jsval)) : list (jsval * jsval) :=
  fold_left (fun acc e => putOne e acc) es rs.

Definition onStore (t : Table) (f : list (jsval * jsval) -> Res (list (jsval * jsval)))
    (d : Db) : Res Db :=
  (fix go (ss : list Stored) (seen : list Stored) : Res Db :=
     match ss with
     | [] => inl (StorageError "InvalidTable")
     | s :: rest =>
         if (tableId (handle s) =? tableId t)%string
         then match f (records s) with
              | inl e => inl e
              | inr rs => inr (mkDb (dbName d) (verno d)
                                    (rev seen ++ mkStored (handle s) rs :: rest))
              end
         else go rest (s :: seen)
     end) (stores d) [].

Definition clear (t : Table) : Db -> Res Db :=
  onStore t (fun _ => inr []).

Definition bulkAdd (t : Table) (values : list jsval) (keys : option (list jsval))
    : Db -> Res Db :=
  onStore t (fun rs =>
    match entries t values keys with
    | inl e => inl e
    | inr es => addAll es rs
    end).

Definition bulkPut (t : Table) (values : list jsval) (keys : option (list jsval))
    : Db -> Res Db :=
  onStore t (fun rs =>
    match entries t values keys with
    | inl e => inl e
    | inr es => inr (putAll es rs)
    end).

(** The collaborators of a run on this engine: format version 1 is the
    newest, and the codec hands plain JSON values through unchanged. *)
#[global] Instance collaborators : Collaborators Db := {
  VERSION := 1;
  revive := fun v => v;
  db_name := dbName;
  db_verno := verno;
  db_table := table;
  db_table_truthy := table_truthy;
  table_clear := clear;
  table_bulkAdd := bulkAdd;
  table_bulkPut := bulkPut
}.

End Memory.

(** * Reasoning about runs *)

Section Runs.

Context {DB : Type} `{Collaborators DB}.

(** From a state in [P], [m] ends in [Q] when it returns and in [E] when
    it throws. *)
Definition hoare {A : Type} (P : World DB -> Prop) (m : M DB A)
    (Q : A -> World DB -> Prop) (E : Error -> World DB -> Prop) : Prop :=
  forall w, P w ->
    match m w with
    | (inr a, w') => Q a w'
    | (inl e, w') => E e w'
    end.

Lemma hoare_ret {A : Type} (P : World DB -> Prop) (a : A) Q E :
  (forall w, P w -> Q a w) -> hoare P (ret a) Q E.
Proof. intros HQ w Hw. apply HQ, Hw. Qed.

Lemma hoare_throw {A : Type} (P : World DB -> Prop) (e : Error)
    (Q : A -> World DB -> Prop) E :
  (forall w, P w -> E e w) -> hoare P (throw e) Q E.
Proof. intros HE w Hw. apply HE, Hw. Qed.

Lemma hoare_bind {A B : Type} (P : World DB -> Prop) (m : M DB A)
    (k : A -> M DB B) (Q1 : A -> World DB -> Prop) Q E :
  hoare P m Q1 E -> (forall a, hoare (Q1 a) (k a) Q E) -> hoare P (bind m k) Q E.
Proof.
  intros Hm Hk w Hw. unfold bind. specialize (Hm w Hw).
  destruct (m w) as [[e | a] w1]; [exact Hm | apply Hk, Hm].
Qed.

Lemma hoare_getWorld (P : World DB -> Prop) E :
  hoare P getWorld (fun w0 w => P w /\ w0 = w) E.
Proof. intros w Hw. split; [exact Hw | reflexivity]. Qed.

Lemma hoare_weaken {A : Type} (P P' : World DB -> Prop) (m : M DB A) Q E :
  (forall w, P' w -> P w) -> hoare P m Q E -> hoare P' m Q E.
Proof. intros HP Hm w Hw. apply Hm, HP, Hw. Qed.

Lemma bind_inl {A B : Type} (m : M DB A) (k : A -> M DB B) w e w' :
  m w = (inl e, w') -> bind m k w = (inl e, w').
Proof. intros Hm. unfold bind. rewrite Hm. reflexivity. Qed.

Lemma bind_inr {A B : Type} (m : M DB A) (k : A -> M DB B) w a w' :
  m w = (inr a, w') -> bind m k w = k a w'.
Proof. intros Hm. unfold bind. rewrite Hm. reflexivity. Qed.

(** *** Which parts of the state each primitive touches *)

Lemma notify_fields options (w : World DB) :
  let w' := snd (notify options w) in
  jsonStream w' = jsonStream w /\ progress w' = progress w
  /\ db w' = db w /\ written w' = written w.
Proof.
  unfold notify. destruct (progressCallback options) as [cb |]; simpl.
  - destruct (cb _ _); simpl; repeat split.
  - repeat split.
Qed.

Lemma storage_fields op (w : World DB) :
  let w' := snd (storage op w) in
  jsonStream w' = jsonStream w /\ progress w' = progress w
  /\ observed w' = observed w /\ written w' = written w.
Proof. unfold storage. destruct (op (db w)); simpl; repeat split. Qed.

Lemma bulkWrite_fields options t vs ks (w : World DB) :
  let w' := snd (bulkWrite options t vs ks w) in
  jsonStream w' = jsonStream w /\ progress w' = progress w
  /\ observed w' = observed w.
Proof.
  unfold bulkWrite.
  destruct (overwriteValues options);
    match goal with
    | |- context [storage ?op ?w0] =>
        destruct (storage_fields op w0) as (Hs & Hp & Ho & _)
    end; simpl in *; rewrite Hs, Hp, Ho; repeat split.
Qed.

Lemma dropLeading_fields (w : World DB) :
  let w' := snd (dropLeading w) in
  progress w' = progress w /\ db w' = db w
  /\ observed w' = observed w /\ written w' = written w
  /\ pending (jsonStream w') = pending (jsonStream w)
  /\ parserDone (jsonStream w') = parserDone (jsonStream w).
Proof.
  unfold dropLeading. destruct (data _) as [q |]; [| repeat split].
  destruct (dropCompleted q); repeat split.
Qed.

(** *** Invariants of the loops *)

Section Invariant.

Variable Inv : World DB -> Prop.
Variable Err : Error -> World DB -> Prop.

(** [m] keeps the invariant, and throws only into [Err]. *)
Definition keeps {A : Type} (m : M DB A) : Prop :=
  hoare Inv m (fun _ => Inv) Err.

Hypothesis Err_any : forall e w, Inv w -> Err e w.
Hypothesis Inv_notify : forall options, keeps (notify options).
Hypothesis Inv_db : forall d w, Inv w -> Inv (setDb d w).
Hypothesis Inv_written : forall c w, Inv w ->
  Inv {| jsonStream := jsonStream w; progress := progress w; db := db w;
         observed := observed w; written := c :: written w |}.
Hypothesis Inv_advance : forall buffer, keeps (advance (js_map revive buffer)).

Lemma keeps_ret {A : Type} (a : A) : keeps (ret a).
Proof. apply hoare_ret. auto. Qed.

Lemma keeps_throw {A : Type} (e : Error) : keeps (@throw DB A e).
Proof. apply hoare_throw. auto. Qed.

Lemma keeps_bind {A B : Type} (m : M DB A) (k : A -> M DB B) :
  keeps m -> (forall a, keeps (k a)) -> keeps (bind m k).
Proof. intros Hm Hk. eapply hoare_bind; [exact Hm | exact Hk]. Qed.

Lemma keeps_when (b : bool) (m : M DB unit) : keeps m -> keeps (when b m).
Proof. intros Hm. destruct b; [exact Hm | apply keeps_ret]. Qed.

Lemma keeps_storage op : keeps (storage op).
Proof.
  intros w Hw. unfold storage.
  destruct (op (db w)) as [e | d]; [apply Err_any, Hw | apply Inv_db, Hw].
Qed.

Lemma keeps_bulkWrite options t vs ks : keeps (bulkWrite options t vs ks).
Proof.
  intros w Hw. unfold bulkWrite.
  destruct (overwriteValues options); apply keeps_storage, Inv_written, Hw.
Qed.

(** The world read back by [getWorld] is only used for its table handle
    and schema manifest. *)
Lemma keeps_importTable options tableExport :
  keeps (importTable options tableExport).
Proof.
  unfold importTable.
  destruct (rows tableExport) as [buffer |]; [| apply keeps_ret].
  destruct (complete buffer && (length (items buffer) =? 0)%nat); [apply keeps_ret |].
  apply keeps_bind; [apply Inv_notify | intros _].
  eapply hoare_bind; [apply hoare_getWorld | intros w0].
  apply (hoare_weaken Inv); [intros w [Hw _]; exact Hw |].
  destruct (db_table _ _) as [e | [table |]]; [apply keeps_throw | |].
  - destruct (schemaOf _ _) as [e | tableSchemaStr]; [apply keeps_throw |].
    destruct (negb (acceptChangedPrimaryKey options) && _); [apply keeps_throw |].
    destruct (keysAndValues _ _ _) as [ks vs].
    apply keeps_bind; [apply keeps_when, keeps_storage | intros _].
    apply keeps_bind; [apply keeps_bulkWrite | intros _].
    apply keeps_bind; [apply Inv_advance | intros _].
    apply keeps_ret.
  - destruct (schemaOf _ _) as [e | tableSchemaStr]; [apply keeps_throw |].
    destruct (negb (acceptMissingTables options)); [apply keeps_throw | apply keeps_ret].
Qed.

Lemma keeps_forEachTable options q : keeps (forEachTable options q).
Proof.
  induction q as [| tableExport rest IH]; simpl.
  - apply keeps_ret.
  - apply keeps_bind; [apply keeps_importTable | intros [|]];
      [exact IH | apply keeps_ret].
Qed.

Lemma keeps_innerPass options : keeps (innerPass options).
Proof.
  unfold innerPass.
  eapply hoare_bind; [apply hoare_getWorld | intros w0].
  apply (hoare_weaken Inv); [intros w [Hw _]; exact Hw |].
  destruct (data _); [apply keeps_forEachTable | apply keeps_throw].
Qed.

Hypothesis Inv_stream : forall s w, Inv w -> Inv (setStream s w).

Lemma keeps_dropLeading : keeps dropLeading.
Proof.
  intros w Hw. unfold dropLeading.
  destruct (data _) as [q |]; [| apply Err_any, Hw].
  destruct (dropCompleted q) as [[e | []] q'].
  - apply Err_any, Inv_stream, Hw.
  - apply Inv_stream, Hw.
Qed.

Lemma keeps_streamOpen : keeps streamOpen.
Proof. intros w Hw. exact Hw. Qed.

Lemma keeps_pullMore options : keeps (pullMore options).
Proof.
  intros w Hw. unfold pullMore. apply Inv_stream, Hw.
Qed.

Lemma keeps_turn options : keeps (turn options).
Proof.
  unfold turn.
  apply keeps_bind; [apply keeps_innerPass | intros _].
  apply keeps_bind; [apply keeps_dropLeading | intros _].
  apply keeps_bind; [apply keeps_streamOpen | intros more].
  apply keeps_bind; [apply keeps_when, keeps_pullMore | intros _].
  apply keeps_streamOpen.
Qed.

Lemma keeps_importAllLoop options fuel : keeps (importAllLoop options fuel).
Proof.
  induction fuel as [| fuel IH]; simpl;
    (apply keeps_bind; [apply keeps_turn | intros [|]]);
    try apply keeps_ret; exact IH.
Qed.

Lemma keeps_importAll options : keeps (importAll options).
Proof. intros w Hw. unfold importAll. apply keeps_importAllLoop, Hw. Qed.

End Invariant.

(** The inner pass leaves the stream, and with it the shared queue, alone:
    the only array it empties is its own copy. *)
Ltac stream_kept lemma w :=
  let Hkeeps := fresh "Hkeeps" in
  pose proof (lemma (fun w' : World DB => jsonStream w' = jsonStream w)
                    (fun (_ : Error) (w' : World DB) => jsonStream w' = jsonStream w))
    as Hkeeps;
  unfold keeps, hoare in Hkeeps;
  specialize (Hkeeps (fun _ _ Hw => Hw));
  match goal with
  | |- jsonStream (snd (?m w)) = _ =>
      assert (Hrun : match m w with
                     | (inr _, w') | (inl _, w') => jsonStream w' = jsonStream w
                     end);
      [ apply Hkeeps; try reflexivity; try (intros; assumption);
        let o := fresh in let w' := fresh in let Hw' := fresh in
        intros o w' Hw'; destruct (notify_fields o w') as [Hs _];
        destruct (notify o w') as [[? | []] ?]; simpl in Hs; congruence
      | destruct (m w) as [[? | ?] ?]; exact Hrun ]
  end.

Lemma importTable_jsonStream options tableExport (w : World DB) :
  jsonStream (snd (importTable options tableExport w)) = jsonStream w.
Proof.
  stream_kept (fun Inv Err H1 H2 H3 H4 H5 =>
                 keeps_importTable Inv Err H1 H2 H3 H4 H5 options tableExport) w.
Qed.

Lemma forEachTable_jsonStream options q (w : World DB) :
  jsonStream (snd (forEachTable options q w)) = jsonStream w.
Proof.
  stream_kept (fun Inv Err H1 H2 H3 H4 H5 =>
                 keeps_forEachTable Inv Err H1 H2 H3 H4 H5 options q) w.
Qed.

Lemma innerPass_jsonStream options (w : World DB) :
  jsonStream (snd (innerPass options w)) = jsonStream w.
Proof.
  stream_kept (fun Inv Err H1 H2 H3 H4 H5 =>
                 keeps_innerPass Inv Err H1 H2 H3 H4 H5 options) w.
Qed.

(** *** The loops end *)

Lemma dropLeading_pending (w : World DB) :
  pending (jsonStream (snd (dropLeading w))) = pending (jsonStream w).
Proof.
  unfold dropLeading. destruct (data _) as [q |]; [| reflexivity].
  destruct (dropCompleted q); reflexivity.
Qed.

(** A turn that asks for another turn has consumed a slice. *)
Lemma turn_consumes options (w w' : World DB) :
  turn options w = (inr true, w') ->
  (length (pending (jsonStream w')) < length (pending (jsonStream w)))%nat.
Proof.
  unfold turn, bind. intros Hturn.
  pose proof (innerPass_jsonStream options w) as Hpass.
  destruct (innerPass options w) as [[e | []] w1]; [discriminate |].
  simpl in Hpass.
  pose proof (dropLeading_pending w1) as Hdrop.
  destruct (dropLeading w1) as [[e | []] w2]; [discriminate |].
  simpl in Hdrop. rewrite Hpass in Hdrop.
  unfold streamOpen, pullMore, when, ret, eof, done, pull in Hturn.
  destruct (parserDone (jsonStream w2)) eqn:Hdone; simpl in Hturn.
  - rewrite Hdone in Hturn. simpl in Hturn. discriminate.
  - destruct (pending (jsonStream w2)) as [| c rest] eqn:Hpending; simpl in Hturn.
    + rewrite Hdone, Hpending in Hturn. simpl in Hturn. discriminate.
    + injection Hturn as _ Hw'. subst w'. simpl. rewrite Hpending, <- Hdrop. simpl. lia.
Qed.

(** The bound on the turns is never reached: more fuel changes nothing. *)
Lemma importAllLoop_fuel options n m (w : World DB) :
  (length (pending (jsonStream w)) <= n)%nat ->
  (length (pending (jsonStream w)) <= m)%nat ->
  importAllLoop options n w = importAllLoop options m w.
Proof.
  revert m w. induction n as [| n IH]; intros m w Hn Hm.
  - destruct m as [| m]; [reflexivity |].
    simpl. unfold bind.
    destruct (turn options w) as [[e | [|]] w'] eqn:Hturn; try reflexivity.
    apply turn_consumes in Hturn. lia.
  - destruct m as [| m].
    + simpl. unfold bind.
      destruct (turn options w) as [[e | [|]] w'] eqn:Hturn; try reflexivity.
      apply turn_consumes in Hturn. lia.
    + simpl. unfold bind.
      destruct (turn options w) as [[e | [|]] w'] eqn:Hturn; try reflexivity.
      apply turn_consumes in Hturn. apply IH; lia.
Qed.

End Runs.

(** The loader stops pulling only at the end of the input or once the
    queue has appeared. *)
Lemma loadLoop_exit (n : nat) (s : JsonStream) (size : Z) :
  (length (pending s) <= n)%nat ->
  eof (loadLoop n s size) = true \/ headerPending (loadLoop n s size) = false.
Proof.
  revert s. induction n as [| n IH]; intros s Hn; simpl.
  - destruct (eof s) eqn:Heof; simpl; [left; exact Heof |].
    unfold eof in Heof. destruct (pending s); [discriminate | simpl in Hn; lia].
  - destruct (eof s) eqn:Heof; simpl; [left; exact Heof |].
    destruct (headerPending s) eqn:Hhead; [| right; exact Hhead].
    apply IH. unfold pull. unfold eof in Heof.
    destruct (pending s); [discriminate | simpl in *; lia].
Qed.

(** * The Stream Loader *)

(** A field the loader's test [!x] takes for absent: not there at all, or
    there with a falsy value. *)
Definition falsyStr (o : option string) : Prop := o = None \/ o = Some "".
Definition falsyNum (o : option Z) : Prop := o = None \/ o = Some 0.

Lemma truthyStr_false (o : option string) :
  truthyStr o = false <-> falsyStr o.
Proof.
  unfold truthyStr, falsyStr. destruct o as [s |].
  - destruct (String.eqb_spec s ""); simpl; split; intros Hs.
    + right. congruence.
    + reflexivity.
    + discriminate.
    + destruct Hs as [Hs | Hs]; [discriminate | congruence].
  - split; [left; reflexivity | reflexivity].
Qed.

Lemma truthyNum_false (o : option Z) :
  truthyNum o = false <-> falsyNum o.
Proof.
  unfold truthyNum, falsyNum. destruct o as [n |].
  - destruct (Z.eqb_spec n 0); simpl; split; intros Hn.
    + right. congruence.
    + reflexivity.
    + discriminate.
    + destruct Hn as [Hn | Hn]; [discriminate | congruence].
  - split; [left; reflexivity | reflexivity].
Qed.

(** C8 (as amended): the loader checks the parsed header in this order.  A
    format marker other than "dexie" gives FormatError; otherwise a format
    version above the supported maximum gives UnsupportedVersionError;
    otherwise the first of [data], [databaseName], [databaseVersion],
    [tables] that is absent or falsy (an empty name, a version of 0) gives
    MalformedExportError naming that field; otherwise the loader returns the
    stream it pulled from. *)
Theorem loader_validation_order (V : Z) (exportedData : ExportedData) (size : Z) :
  let stream := loadedStream exportedData size in
  let file := result stream in
  let outcome := loadUntilWeGotEnoughData V exportedData size in
  (formatName file <> Some "dexie" -> outcome = inl FormatError)
  /\ (formatName file = Some "dexie" ->
      forall v, formatVersion file = Some v -> V < v ->
      outcome = inl (UnsupportedVersionError v))
  /\ (formatName file = Some "dexie" ->
      (forall v, formatVersion file = Some v -> v <= V) ->
      (envData file = None -> outcome = inl (MalformedExportError "data"))
      /\ (forall d, envData file = Some d ->
          (falsyStr (databaseName d) ->
           outcome = inl (MalformedExportError "databaseName"))
          /\ (~ falsyStr (databaseName d) -> falsyNum (databaseVersion d) ->
              outcome = inl (MalformedExportError "databaseVersion"))
          /\ (~ falsyStr (databaseName d) -> ~ falsyNum (databaseVersion d) ->
              tables d = None ->
              outcome = inl (MalformedExportError "tables"))
          /\ (~ falsyStr (databaseName d) -> ~ falsyNum (databaseVersion d) ->
              tables d <> None ->
              outcome = inr stream))).
Proof.
  intros stream file outcome.
  unfold outcome, loadUntilWeGotEnoughData. fold stream. fold file.
  unfold validateHeader.
  split; [| split].
  - intros Hname. destruct (formatName file) as [f |]; [| reflexivity].
    destruct (String.eqb_spec f "dexie"); [congruence | reflexivity].
  - intros Hname v Hv Hlt. rewrite Hname, Hv. simpl.
    apply Z.ltb_lt in Hlt. rewrite Hlt. reflexivity.
  - intros Hname Hversion. rewrite Hname. simpl.
    assert (Hle : match formatVersion file with
                  | Some v => V <? v
                  | None => false
                  end = false).
    { destruct (formatVersion file) as [v |]; [| reflexivity].
      apply Z.ltb_ge. apply Hversion. reflexivity. }
    rewrite Hle. split.
    + intros Hdata. rewrite Hdata. reflexivity.
    + intros d Hdata. rewrite Hdata.
      destruct (truthyStr (databaseName d)) eqn:Hn; simpl.
      * assert (Hn' : ~ falsyStr (databaseName d))
          by (intros Hf; apply truthyStr_false in Hf; congruence).
        destruct (truthyNum (databaseVersion d)) eqn:Hv; simpl.
        -- assert (Hv' : ~ falsyNum (databaseVersion d))
             by (intros Hf; apply truthyNum_false in Hf; congruence).
           destruct (tables d) as [ts |]; simpl;
             repeat split; intros; try contradiction; congruence.
        -- apply truthyNum_false in Hv.
           repeat split; intros; try contradiction; reflexivity.
      * apply truthyStr_false in Hn.
        repeat split; intros; try contradiction; reflexivity.
Qed.

(** * Exports and databases to run on *)

Module Scenario.

(** 512 KB, the default pull size. *)
Definition size : Z := chunkSize defaultOptions.

Definition record (id : Z) : jsval := JObj [("id", JNum id)].

(** The header of an export of database "db1", version 1, whose manifest
    lists the given tables. *)
Definition header (manifest : list TableSchema) : Chunk :=
  [SetFormatName "dexie"; SetFormatVersion 1; OpenExport;
   SetDatabaseName "db1"; SetDatabaseVersion 1; OpenTables]
  ++ map PushTableSchema manifest
  ++ [OpenQueue].

(** One table with all its rows. *)
Definition wholeTable (n : string) (isInbound : bool) (rs : list jsval) : Chunk :=
  [OpenTable n isInbound; OpenRows] ++ map PushRow rs ++ [CloseRows].

(** Database "db1", version 1, with an empty table [t] keyed by [id]. *)
Definition db1 : Memory.Db :=
  Memory.mkDb "db1" 1 [Memory.mkStored (mkTable "t" "id") []].

(** The same with an empty outbound table [kv]. *)
Definition dbKv : Memory.Db :=
  Memory.mkDb "db1" 1 [Memory.mkStored (mkTable "kv" "") []].

(** Table [t] with two rows, the whole export in one slice. *)
Definition oneSlice : list Chunk :=
  [header [mkSchema "t" "id" 2]
   ++ wholeTable "t" true [record 1; record 2] ++ [CloseRoot]].

(** The same export cut in three: the first slice ends after the first
    row, the second brings the second row and closes the table, the third
    closes the document. *)
Definition threeSlices : list Chunk :=
  [header [mkSchema "t" "id" 2] ++ [OpenTable "t" true; OpenRows; PushRow (record 1)];
   [PushRow (record 2); CloseRows];
   [CloseRoot]].

(** An outbound table [kv] with the rows [[1, "a"]] and [[2, "b"]]. *)
Definition outbound : list Chunk :=
  [header [mkSchema "kv" "" 2]
   ++ wholeTable "kv" false [JArr [JNum 1; JStr "a"]; JArr [JNum 2; JStr "b"]]
   ++ [CloseRoot]].

(** Keep every row but the one with key 1. *)
Definition notKeyOne (tbl : string) (value : jsval) (key : option jsval) : bool :=
  match key with
  | Some (JNum 1) => false
  | _ => true
  end.

(** [t] with two rows, and a table [pets] that the target does not have:
    with one row, or empty. *)
Definition withPets (petRows : list jsval) : list Chunk :=
  [header [mkSchema "pets" "id" (Z.of_nat (length petRows)); mkSchema "t" "id" 2]
   ++ wholeTable "pets" true petRows
   ++ wholeTable "t" true [record 1; record 2] ++ [CloseRoot]].

(** [t] with two rows, preceded by a table [ghost] that the manifest does
    not list. *)
Definition withGhost (ghostRows : list jsval) : list Chunk :=
  [header [mkSchema "t" "id" 2]
   ++ wholeTable "ghost" true ghostRows
   ++ wholeTable "t" true [record 1; record 2] ++ [CloseRoot]].

Definition entry (n : string) (rs : list jsval) : TableExport :=
  mkTableExport n true (Some (mkArray rs true)).

(** The state in which [importAll] starts on a blob: header loaded,
    progress object created, nothing written. *)
Definition loaded (d : Memory.Db) (blob : list Chunk) : World Memory.Db :=
  let stream := loadedStream (Blob blob) size in
  setProgress
    (initialProgress (match tables (dbExportOf stream) with
                      | Some ts => ts
                      | None => []
                      end))
    (startWorld d stream).

(** A header whose four fields are all there, with database version 0. *)
Definition versionZero : list Chunk :=
  [[SetFormatName "dexie"; SetFormatVersion 1; OpenExport;
    SetDatabaseName "db1"; SetDatabaseVersion 0; OpenTables; OpenQueue; CloseRoot]].

Definition withOverwrite : ImportOptions :=
  {| acceptMissingTables := false; acceptVersionDiff := false;
     acceptNameDiff := false; acceptChangedPrimaryKey := false;
     overwriteValues := true; clearTablesBeforeImport := false;
     noTransaction := false; numKilobytesPerChunk := None;
     rowFilter := None; progressCallback := Some (fun _ _ => false) |}.

Definition withFilter : ImportOptions :=
  {| acceptMissingTables := false; acceptVersionDiff := false;
     acceptNameDiff := false; acceptChangedPrimaryKey := false;
     overwriteValues := false; clearTablesBeforeImport := false;
     noTransaction := false; numKilobytesPerChunk := None;
     rowFilter := Some notKeyOne; progressCallback := None |}.

Definition acceptingMissing : ImportOptions :=
  {| acceptMissingTables := true; acceptVersionDiff := false;
     acceptNameDiff := false; acceptChangedPrimaryKey := false;
     overwriteValues := false; clearTablesBeforeImport := false;
     noTransaction := false; numKilobytesPerChunk := None;
     rowFilter := None; progressCallback := None |}.

(** An observer that asks to abort once it is shown [done = true]. *)
Definition abortWhenDone : ImportOptions :=
  {| acceptMissingTables := false; acceptVersionDiff := false;
     acceptNameDiff := false; acceptChangedPrimaryKey := false;
     overwriteValues := false; clearTablesBeforeImport := false;
     noTransaction := false; numKilobytesPerChunk := None;
     rowFilter := None; progressCallback := Some (fun _ p => isDone p) |}.

(** An observer that asks to abort on its third invocation. *)
Definition abortThird : ImportOptions :=
  {| acceptMissingTables := false; acceptVersionDiff := false;
     acceptNameDiff := false; acceptChangedPrimaryKey := false;
     overwriteValues := false; clearTablesBeforeImport := false;
     noTransaction := false; numKilobytesPerChunk := None;
     rowFilter := None; progressCallback := Some (fun k _ => (k =? 2)%nat) |}.

(** Database "B", version 1, with the same empty table [t]. *)
Definition dbB : Memory.Db :=
  Memory.mkDb "B" 1 [Memory.mkStored (mkTable "t" "id") []].

End Scenario.

(** * The Schema Reconciler's global checks *)

Section GlobalChecks.

Context {DB : Type} `{Collaborators DB}.

(** C7: when the loader accepts the header, the export's [databaseName]
    differs from the target's name and [acceptNameDiff] is off, [importInto]
    fails with NameMismatchError; the target database is as it was, no bulk
    write has been issued and the observer has not been called. *)
Theorem name_mismatch_rejected (d : DB) (exportedData : ExportedData)
    (options : ImportOptions) (stream : JsonStream) :
  loadUntilWeGotEnoughData VERSION exportedData (chunkSize options) = inr stream ->
  acceptNameDiff options = false ->
  databaseName (dbExportOf stream) <> Some (db_name d) ->
  let outcome := importInto d exportedData options in
  fst outcome = inl NameMismatchError
  /\ db (snd outcome) = d
  /\ written (snd outcome) = []
  /\ observed (snd outcome) = [].
Proof.
  intros Hload Haccept Hname outcome.
  unfold outcome, importInto. rewrite Hload, Haccept.
  assert (Htest : match databaseName (dbExportOf stream) with
                  | Some n => (db_name d =? n)%string
                  | None => false
                  end = false).
  { destruct (databaseName (dbExportOf stream)) as [n |]; [| reflexivity].
    destruct (String.eqb_spec (db_name d) n); [congruence | reflexivity]. }
  rewrite Htest. simpl. repeat split.
Qed.

End GlobalChecks.

(** Export "db1" into database "B" with default options. *)
Lemma name_mismatch_rejected_witness :
  fst (importInto Scenario.dbB (Blob Scenario.oneSlice) defaultOptions)
    = inl NameMismatchError
  /\ db (snd (importInto Scenario.dbB (Blob Scenario.oneSlice) defaultOptions))
    = Scenario.dbB.
Proof.
  destruct (name_mismatch_rejected Scenario.dbB (Blob Scenario.oneSlice) defaultOptions
              (loadedStream (Blob Scenario.oneSlice) Scenario.size))
    as (Hfail & Hdb & _).
  - reflexivity.
  - reflexivity.
  - discriminate.
  - split; [exact Hfail | exact Hdb].
Defined.

(** * The abort protocol *)

Section Abort.

Context {DB : Type} `{Collaborators DB}.

(** No invocation of the observer has asked to abort. *)
Definition quiet (w : World DB) : Prop :=
  Forall (fun call => snd call = false) (observed w).

(** The latest invocation asked to abort, no earlier one did, and the error
    is the abort. *)
Definition abortedBy (e : Error) (w : World DB) : Prop :=
  exists p earlier,
    observed w = (p, true) :: earlier
    /\ Forall (fun call => snd call = false) earlier
    /\ progress w = p
    /\ e = AbortedError.

Definition quietOrAborted (e : Error) (w : World DB) : Prop :=
  quiet w \/ abortedBy e w.

Lemma notify_quiet options :
  hoare quiet (notify options) (fun _ => quiet) quietOrAborted.
Proof.
  intros w Hw. unfold notify.
  destruct (progressCallback options) as [cb |]; [| exact Hw].
  destruct (cb _ _).
  - right. exists (progress w), (observed w). repeat split. exact Hw.
  - constructor; [reflexivity | exact Hw].
Qed.

(** Every part of the import loop stays quiet until the observer aborts. *)
Lemma importAll_quiet options :
  hoare quiet (importAll options) (fun _ => quiet) quietOrAborted.
Proof.
  apply keeps_importAll.
  - intros e w Hw. left. exact Hw.
  - apply notify_quiet.
  - intros d w Hw. exact Hw.
  - intros c w Hw. exact Hw.
  - intros b w Hw. exact Hw.
  - intros s w Hw. exact Hw.
Qed.

Lemma transaction_rollback (body : M DB unit) (w : World DB) e w' :
  transaction body w = (inl e, w') -> db w' = db w.
Proof.
  unfold transaction. destruct (body w) as [[e' | []] w1]; intros Hrun.
  - injection Hrun as _ Hw. subst w'. reflexivity.
  - discriminate.
Qed.

Lemma transaction_quiet (body : M DB unit) :
  hoare quiet body (fun _ => quiet) quietOrAborted ->
  hoare quiet (transaction body) (fun _ => quiet) quietOrAborted.
Proof.
  intros Hbody w Hw. specialize (Hbody w Hw). unfold transaction.
  destruct (body w) as [[e | []] w1]; [| exact Hbody].
  destruct Hbody as [Hq | (p & earlier & Ho & Hq & Hp & He)].
  - left. exact Hq.
  - right. exists p, earlier. repeat split; assumption.
Qed.

Lemma quiet_not_aborting (w : World DB) p :
  quiet w -> ~ In (p, true) (observed w).
Proof.
  intros Hq Hin. unfold quiet in Hq. rewrite Forall_forall in Hq.
  specialize (Hq _ Hin). discriminate.
Qed.

Lemma abortedBy_inv e (w : World DB) p :
  abortedBy e w -> In (p, true) (observed w) ->
  e = AbortedError /\ p = progress w.
Proof.
  intros (p0 & earlier & Ho & Hq & Hp & He) Hin.
  rewrite Ho in Hin. destruct Hin as [Heq | Hin].
  - injection Heq as <-. split; [exact He | symmetry; exact Hp].
  - rewrite Forall_forall in Hq. specialize (Hq _ Hin). discriminate.
Qed.

(** C4 (as amended): in transactional mode, whenever the observer has
    returned true on an invocation, [importInto] fails with AbortedError;
    and if that invocation was not the final one (its snapshot has
    [done = false]: the one before any row is written, or a per-batch one),
    the target database is exactly as it was before the import. *)
Theorem abort_before_commit_rolls_back (d : DB) (exportedData : ExportedData)
    (options : ImportOptions) (p : ImportProgress) :
  noTransaction options = false ->
  let outcome := importInto d exportedData options in
  In (p, true) (observed (snd outcome)) ->
  fst outcome = inl AbortedError
  /\ (isDone p = false -> db (snd outcome) = d).
Proof.
  intros Hmode outcome. unfold outcome, importInto. rewrite Hmode.
  destruct (loadUntilWeGotEnoughData _ _ _) as [e | stream]; [intros [] |].
  destruct (negb (acceptNameDiff options) && _); [intros [] |].
  destruct (negb (acceptVersionDiff options) && _); [intros [] |].
  destruct (tables (dbExportOf stream)) as [ts |]; [| intros []].
  set (w1 := setProgress (initialProgress ts) _).
  assert (Hq1 : quiet w1) by constructor.
  assert (Hd1 : db w1 = d) by reflexivity.
  clearbody w1.
  pose proof (notify_quiet options w1 Hq1) as Hn1.
  destruct (notify_fields options w1) as (_ & _ & Hdb2 & _).
  destruct (notify options w1) as [[e | []] w2] eqn:Hnotify1; simpl in Hdb2.
  - (* abort before any row is written *)
    rewrite (bind_inl _ _ _ _ _ Hnotify1). simpl.
    intros Hin. destruct Hn1 as [Hq | Hab].
    + exfalso. exact (quiet_not_aborting _ _ Hq Hin).
    + destruct (abortedBy_inv _ _ _ Hab Hin) as [-> _].
      split; [reflexivity | intros _; congruence].
  - rewrite (bind_inr _ _ _ _ _ Hnotify1).
    pose proof (transaction_quiet _ (importAll_quiet options) w2 Hn1) as Hbody.
    destruct (transaction (importAll options) w2) as [[e | []] w3] eqn:Hrun.
    + (* abort, or any other failure, inside the transaction *)
      rewrite (bind_inl _ _ _ _ _ Hrun). simpl.
      intros Hin. destruct Hbody as [Hq | Hab].
      * exfalso. exact (quiet_not_aborting _ _ Hq Hin).
      * destruct (abortedBy_inv _ _ _ Hab Hin) as [-> _].
        split; [reflexivity | intros _].
        apply transaction_rollback in Hrun. congruence.
    + (* the transaction has committed *)
      rewrite (bind_inr _ _ _ _ _ Hrun).
      rewrite (bind_inr markDone _ w3 tt _ eq_refl).
      set (w4 := setProgress _ w3).
      assert (Hq4 : quiet w4) by exact Hbody.
      assert (Hp4 : isDone (progress w4) = true) by reflexivity.
      clearbody w4.
      pose proof (notify_quiet options w4 Hq4) as Hn4.
      destruct (notify_fields options w4) as (_ & Hp5 & _).
      destruct (notify options w4) as [[e | []] w5]; simpl in *; intros Hin.
      * destruct Hn4 as [Hq | Hab].
        -- exfalso. exact (quiet_not_aborting _ _ Hq Hin).
        -- destruct (abortedBy_inv _ _ _ Hab Hin) as [-> ->].
           split; [reflexivity | intros Hnot; congruence].
      * exfalso. exact (quiet_not_aborting _ _ Hn4 Hin).
Qed.

End Abort.

(** * The inner pass over the queue *)

Section Queue.

Context {DB : Type} `{Collaborators DB}.

(** A buffer the inner pass has work for: it is there, and it is not both
    complete and empty. *)
Definition hasBatch (tableExport : TableExport) : Prop :=
  exists buffer, rows tableExport = Some buffer
    /\ (complete buffer = false \/ items buffer <> []).

Lemma hasBatch_guard tableExport buffer :
  rows tableExport = Some buffer ->
  (complete buffer = false \/ items buffer <> []) ->
  complete buffer && (length (items buffer) =? 0)%nat = false.
Proof.
  intros _ [Hc | Hi].
  - rewrite Hc. reflexivity.
  - destruct (items buffer); [congruence |]. apply andb_false_r.
Qed.

(** The pass stops early only at an entry without a row buffer. *)
Lemma importTable_break options tableExport (w w' : World DB) :
  importTable options tableExport w = (inr Break, w') ->
  rows tableExport = None.
Proof.
  unfold importTable.
  destruct (rows tableExport) as [buffer |]; [| reflexivity].
  destruct (complete buffer && _); [discriminate |].
  unfold bind, getWorld, ret, throw, when.
  destruct (notify options w) as [[e | []] w1]; [discriminate |].
  destruct (db_table _ _) as [e | [table |]]; [discriminate | |].
  - destruct (schemaOf _ _); [discriminate |].
    destruct (negb (acceptChangedPrimaryKey options) && _); [discriminate |].
    destruct (keysAndValues _ _ _) as [ks vs].
    destruct (clearTablesBeforeImport options); cbv iota;
      repeat match goal with
             | |- context [let (_, _) := ?run in _] =>
                 destruct run as [[? | []] ?]; try discriminate
             end.
  - destruct (schemaOf _ _); [discriminate |].
    destruct (negb (acceptMissingTables options)); discriminate.
Qed.

Lemma schemaOf_unlisted (dbExport : DatabaseExport) (n : string) :
  (forall ts, tables dbExport = Some ts -> Forall (fun t => name t <> n) ts) ->
  exists e, schemaOf dbExport n = inl e.
Proof.
  intros Hunlisted. unfold schemaOf.
  destruct (tables dbExport) as [ts |]; [| eexists; reflexivity].
  specialize (Hunlisted ts eq_refl).
  assert (Hnone : filter (fun t => (name t =? n)%string) ts = []).
  { induction Hunlisted as [| t rest Ht _ IH]; [reflexivity |].
    simpl. destruct (String.eqb_spec (name t) n); [contradiction | exact IH]. }
  rewrite Hnone. eexists; reflexivity.
Qed.

(** A batch of a table the manifest does not list fails in the lookup of
    its schema, whatever the options say. *)
Lemma importTable_unlisted options tableExport (w : World DB) :
  hasBatch tableExport ->
  (forall ts, tables (dbExportOf (jsonStream w)) = Some ts ->
              Forall (fun t => name t <> tableName tableExport) ts) ->
  exists e, fst (importTable options tableExport w) = inl e.
Proof.
  intros (buffer & Hrows & Hwork) Hunlisted. unfold importTable.
  rewrite Hrows, (hasBatch_guard _ _ Hrows Hwork).
  unfold bind, getWorld, throw.
  destruct (notify_fields options w) as (Hs & _).
  destruct (notify options w) as [[e | []] w1]; [eexists; reflexivity |].
  simpl in Hs. rewrite Hs.
  destruct (schemaOf_unlisted _ _ Hunlisted) as [e He]. rewrite He.
  destruct (db_table _ _); eexists; reflexivity.
Qed.

Lemma forEachTable_unlisted options before tableExport after (w : World DB) :
  Forall (fun t => rows t <> None) before ->
  hasBatch tableExport ->
  (forall ts, tables (dbExportOf (jsonStream w)) = Some ts ->
              Forall (fun t => name t <> tableName tableExport) ts) ->
  exists e, fst (forEachTable options (before ++ tableExport :: after) w) = inl e.
Proof.
  intros Hbefore Hbatch. revert w.
  induction Hbefore as [| t rest Ht _ IH]; intros w Hunlisted; simpl.
  - destruct (importTable_unlisted options tableExport w Hbatch Hunlisted) as [e He].
    unfold bind. destruct (importTable options tableExport w) as [[e' | flow] w1];
      [eexists; reflexivity | discriminate].
  - unfold bind.
    pose proof (importTable_jsonStream options t w) as Hs.
    destruct (importTable options t w) as [[e | [|]] w1] eqn:Hrun;
      [eexists; reflexivity | |].
    + apply IH. simpl in Hs. rewrite Hs. exact Hunlisted.
    + apply importTable_break in Hrun. contradiction.
Qed.

(** An error in the first turn is the error of the whole loop. *)
Lemma importAll_first_pass options (w : World DB) e :
  fst (innerPass options w) = inl e ->
  fst (importAll options w) = inl e.
Proof.
  intros Hpass. unfold importAll.
  destruct (innerPass options w) as [r w1] eqn:Hrun. simpl in Hpass. subst r.
  destruct (length _); simpl; unfold turn;
    rewrite (bind_inl _ _ _ _ _ (bind_inl _ _ _ _ _ Hrun)); reflexivity.
Qed.

(** C10 (as amended): if, when the loader returns, the queue holds an entry
    with a batch to process (its buffer is there and is not both complete
    and empty) whose table the manifest does not list, and every entry
    before it has a buffer, then [importInto] fails whatever the options
    are: the schema lookup of line 93 comes before [acceptMissingTables] is
    consulted.  (An unlisted entry whose buffer is complete and empty is
    skipped before the lookup.) *)
Theorem unlisted_table_fails (d : DB) (exportedData : ExportedData)
    (options : ImportOptions) (before after : list TableExport)
    (tableExport : TableExport) :
  let stream := loadedStream exportedData (chunkSize options) in
  data (dbExportOf stream) = Some (before ++ tableExport :: after) ->
  Forall (fun t => rows t <> None) before ->
  hasBatch tableExport ->
  (forall ts, tables (dbExportOf stream) = Some ts ->
              Forall (fun t => name t <> tableName tableExport) ts) ->
  exists e, fst (importInto d exportedData options) = inl e.
Proof.
  intros stream Hqueue Hbefore Hbatch Hunlisted.
  unfold importInto, loadUntilWeGotEnoughData. fold stream.
  destruct (validateHeader VERSION (result stream)); [eexists; reflexivity |].
  destruct (negb (acceptNameDiff options) && _); [eexists; reflexivity |].
  destruct (negb (acceptVersionDiff options) && _); [eexists; reflexivity |].
  destruct (tables (dbExportOf stream)) as [ts |] eqn:Hts; [| eexists; reflexivity].
  set (w1 := setProgress (initialProgress ts) _).
  assert (Hs1 : jsonStream w1 = stream) by reflexivity.
  clearbody w1.
  destruct (notify_fields options w1) as (Hs2 & _).
  destruct (notify options w1) as [[e | []] w2] eqn:Hnotify; simpl in Hs2.
  { rewrite (bind_inl _ _ _ _ _ Hnotify). eexists; reflexivity. }
  rewrite (bind_inr _ _ _ _ _ Hnotify).
  assert (Hpass : exists e, fst (innerPass options w2) = inl e).
  { unfold innerPass, bind, getWorld. rewrite Hs2, Hs1, Hqueue.
    apply forEachTable_unlisted; try assumption.
    rewrite Hs2, Hs1, Hts. intros ts' [= <-]. apply Hunlisted. reflexivity. }
  destruct Hpass as [e Hpass].
  apply importAll_first_pass in Hpass.
  exists e. destruct (noTransaction options).
  - destruct (importAll options w2) as [r w3] eqn:Hrun. simpl in Hpass. subst r.
    rewrite (bind_inl _ _ _ _ _ Hrun). reflexivity.
  - assert (Htx : fst (transaction (importAll options) w2) = inl e).
    { unfold transaction. destruct (importAll options w2) as [r w3].
      simpl in Hpass. subst r. reflexivity. }
    destruct (transaction (importAll options) w2) as [r w3] eqn:Hrun.
    simpl in Htx. subst r.
    rewrite (bind_inl _ _ _ _ _ Hrun). reflexivity.
Qed.

End Queue.

(** * Tables the target database does not have *)

(** [options] with [acceptMissingTables] set to [b]. *)
Definition withMissingTables (b : bool) (options : ImportOptions) : ImportOptions :=
  {| acceptMissingTables := b;
     acceptVersionDiff := acceptVersionDiff options;
     acceptNameDiff := acceptNameDiff options;
     acceptChangedPrimaryKey := acceptChangedPrimaryKey options;
     overwriteValues := overwriteValues options;
     clearTablesBeforeImport := clearTablesBeforeImport options;
     noTransaction := noTransaction options;
     numKilobytesPerChunk := numKilobytesPerChunk options;
     rowFilter := rowFilter options;
     progressCallback := progressCallback options |}.

Section MissingTables.

Context {DB : Type} `{Collaborators DB}.

(** A batch of a table the target database lacks fails at line 92 with the
    error [db.table] throws, after the observer has been called; lines
    94-99 are not reached and [acceptMissingTables] is not looked at. *)
Lemma missing_table_throws (options : ImportOptions) (tableExport : TableExport)
    (e : Error) (w w1 : World DB) :
  hasBatch tableExport ->
  db_table (db w) (tableName tableExport) = inl e ->
  notify options w = (inr tt, w1) ->
  importTable options tableExport w = (inl e, w1).
Proof.
  intros (buffer & Hrows & Hwork) Htable Hnotify.
  destruct (notify_fields options w) as (_ & _ & Hd & _).
  rewrite Hnotify in Hd. simpl in Hd.
  unfold importTable.
  rewrite Hrows, (hasBatch_guard _ _ Hrows Hwork).
  rewrite (bind_inr _ _ _ _ _ Hnotify).
  unfold bind, getWorld. rewrite Hd, Htable. reflexivity.
Qed.

Lemma notify_ignores_override (b : bool) (options : ImportOptions) (w : World DB) :
  notify (withMissingTables b options) w = notify options w.
Proof. reflexivity. Qed.

(** The branch of lines 94-99 is dead: [db.table] returns a table or
    throws, so the body of the loop does the same whatever
    [acceptMissingTables] is. *)
Lemma importTable_ignores_override (b : bool) (options : ImportOptions)
    (tableExport : TableExport) (w : World DB) :
  importTable (withMissingTables b options) tableExport w
    = importTable options tableExport w.
Proof.
  unfold importTable.
  destruct (rows tableExport) as [buffer |]; [| reflexivity].
  destruct (complete buffer && _); [reflexivity |].
  unfold bind, getWorld. rewrite notify_ignores_override.
  destruct (notify options w) as [[e | []] w1]; [reflexivity |].
  destruct (db_table (db w1) (tableName tableExport)) as [e | [table |]] eqn:Htable;
    [reflexivity | |].
  - destruct (schemaOf _ _); reflexivity.
  - exfalso. exact (db_table_truthy _ _ Htable).
Qed.

Lemma forEachTable_ignores_override (b : bool) (options : ImportOptions)
    (q : list TableExport) (w : World DB) :
  forEachTable (withMissingTables b options) q w = forEachTable options q w.
Proof.
  revert w. induction q as [| t rest IH]; intros w; [reflexivity |].
  simpl. unfold bind. rewrite importTable_ignores_override.
  destruct (importTable options t w) as [[e | [|]] w1]; try reflexivity.
  apply IH.
Qed.

Lemma importAll_ignores_override (b : bool) (options : ImportOptions)
    (w : World DB) :
  importAll (withMissingTables b options) w = importAll options w.
Proof.
  assert (Hturn : forall w', turn (withMissingTables b options) w' = turn options w').
  { intros w'. unfold turn, innerPass, bind, getWorld.
    destruct (data (dbExportOf (jsonStream w'))) as [q |]; [| reflexivity].
    rewrite forEachTable_ignores_override. reflexivity. }
  unfold importAll. generalize (length (pending (jsonStream w))) as fuel.
  intros fuel. revert w.
  induction fuel as [| fuel IH]; intros w; simpl; unfold bind; rewrite Hturn;
    destruct (turn options w) as [[e | [|]] w1]; try reflexivity.
  apply IH.
Qed.

(** [acceptMissingTables] has no effect on any import. *)
Lemma acceptMissingTables_has_no_effect (b : bool) (d : DB)
    (exportedData : ExportedData) (options : ImportOptions) :
  importInto d exportedData (withMissingTables b options)
    = importInto d exportedData options.
Proof.
  unfold importInto.
  change (chunkSize (withMissingTables b options)) with (chunkSize options).
  destruct (loadUntilWeGotEnoughData _ _ _) as [e | stream]; [reflexivity |].
  change (acceptNameDiff (withMissingTables b options)) with (acceptNameDiff options).
  change (acceptVersionDiff (withMissingTables b options))
    with (acceptVersionDiff options).
  destruct (negb (acceptNameDiff options) && _); [reflexivity |].
  destruct (negb (acceptVersionDiff options) && _); [reflexivity |].
  destruct (tables (dbExportOf stream)) as [ts |]; [| reflexivity].
  change (noTransaction (withMissingTables b options)) with (noTransaction options).
  set (w1 := setProgress (initialProgress ts) _).
  unfold bind. rewrite !notify_ignores_override.
  destruct (notify options w1) as [[e | []] w2]; [reflexivity |].
  assert (Hbody : (if noTransaction options
                   then importAll (withMissingTables b options)
                   else transaction (importAll (withMissingTables b options))) w2
                  = (if noTransaction options
                     then importAll options
                     else transaction (importAll options)) w2).
  { destruct (noTransaction options); [apply importAll_ignores_override |].
    unfold transaction. rewrite importAll_ignores_override. reflexivity. }
  rewrite Hbody.
  destruct ((if noTransaction options
             then importAll options
             else transaction (importAll options)) w2) as [[e | []] w3];
    reflexivity.
Qed.

End MissingTables.

(** * The pending-table queue *)

Section QueueFront.

Context {DB : Type} `{Collaborators DB}.

(** The buffer of the entry is marked complete. *)
Definition completeEntry (tableExport : TableExport) : Prop :=
  exists buffer, rows tableExport = Some buffer /\ complete buffer = true.

Lemma dropCompleted_prefix (q : list TableExport) :
  exists removed,
    q = removed ++ snd (dropCompleted q) /\ Forall completeEntry removed.
Proof.
  induction q as [| first rest IH]; simpl.
  - exists []. split; [reflexivity | constructor].
  - destruct (rows first) as [buffer |] eqn:Hrows.
    + destruct (complete buffer) eqn:Hcomplete.
      * destruct IH as (removed & Heq & Hall).
        exists (first :: removed). split.
        -- simpl. rewrite <- Heq. reflexivity.
        -- constructor; [exists buffer; split; assumption | exact Hall].
      * exists []. split; [reflexivity | constructor].
    + exists []. split; [reflexivity | constructor].
Qed.

Lemma data_setQueue (q : list TableExport) (s : JsonStream) :
  data (dbExportOf (setQueue q s)) = Some q.
Proof. reflexivity. Qed.

(** Over the inner pass and the clean-up that follows it, the queue loses
    entries only at its front, and every entry it loses has its buffer
    marked complete. *)
Lemma queue_shrinks_from_front (options : ImportOptions) (w : World DB)
    (q : list TableExport) :
  data (dbExportOf (jsonStream w)) = Some q ->
  let w' := snd ((innerPass options ;; dropLeading) w) in
  exists removed q',
    data (dbExportOf (jsonStream w')) = Some q'
    /\ q = removed ++ q'
    /\ Forall completeEntry removed.
Proof.
  intros Hqueue w'. unfold w', bind.
  pose proof (innerPass_jsonStream options w) as Hs.
  destruct (innerPass options w) as [[e | []] w1]; simpl in Hs.
  - exists [], q. simpl. rewrite Hs. repeat split; [exact Hqueue | constructor].
  - unfold dropLeading. rewrite Hs, Hqueue.
    destruct (dropCompleted_prefix q) as (removed & Heq & Hall).
    destruct (dropCompleted q) as [r q']. simpl in Heq.
    exists removed, q'. simpl. repeat split; assumption.
Qed.

End QueueFront.

(** * Runs on concrete exports *)

Import Scenario.

(** The whole export in one slice: the loader returns the stream. *)
Lemma loader_validation_order_witness :
  loadUntilWeGotEnoughData 1 (Blob oneSlice) size
    = inr (loadedStream (Blob oneSlice) size).
Proof.
  destruct (loader_validation_order 1 (Blob oneSlice) size) as (_ & _ & Hfields).
  destruct Hfields as [_ Hpresent].
  - reflexivity.
  - intros v Hv. vm_compute in Hv. injection Hv as <-. lia.
  - destruct (Hpresent (dbExportOf (loadedStream (Blob oneSlice) size)) eq_refl)
      as (_ & _ & _ & Hok).
    apply Hok.
    + intros [Hf | Hf]; discriminate Hf.
    + intros [Hf | Hf]; discriminate Hf.
    + discriminate.
Defined.

(** C8, counterexample: a header that has all of [data], [databaseName],
    [databaseVersion] and [tables], with the right format marker and a
    supported format version, is rejected as lacking [databaseVersion]
    because that version is 0. *)
Lemma version_zero_is_rejected :
  let file := result (loadedStream (Blob versionZero) size) in
  formatName file = Some "dexie"
  /\ formatVersion file = Some 1
  /\ envData file = Some {| databaseName := Some "db1";
                            databaseVersion := Some 0;
                            tables := Some [];
                            data := Some [] |}
  /\ loadUntilWeGotEnoughData 1 (Blob versionZero) size
       = inl (MalformedExportError "databaseVersion").
Proof. repeat split. Qed.

(** The observer aborts on its third invocation, after the first batch of
    [t] has been written: the import fails and [t] is empty again. *)
Lemma abort_before_commit_rolls_back_witness :
  fst (importInto db1 (Blob threeSlices) abortThird) = inl AbortedError
  /\ db (snd (importInto db1 (Blob threeSlices) abortThird)) = db1
  /\ written (snd (importInto db1 (Blob threeSlices) abortThird))
       = [mkWrite "t" false [record 1] None].
Proof.
  destruct (abort_before_commit_rolls_back db1 (Blob threeSlices) abortThird
              (mkProgress 1 0 (Some 2) 1 false)) as [Hfail Hdb].
  - reflexivity.
  - vm_compute. left. reflexivity.
  - split; [exact Hfail | split; [apply Hdb; reflexivity | reflexivity]].
Defined.

(** C4, counterexample: in transactional mode the observer returns true on
    its final invocation, the one with [done = true].  The import fails
    with AbortedError, and the rows it wrote are in the database. *)
Lemma abort_after_commit_keeps_rows :
  let outcome := importInto db1 (Blob oneSlice) abortWhenDone in
  noTransaction abortWhenDone = false
  /\ fst outcome = inl AbortedError
  /\ hd_error (observed (snd outcome))
       = Some (mkProgress 1 0 (Some 2) 2 true, true)
  /\ Memory.stores (db (snd outcome))
       = [Memory.mkStored (mkTable "t" "id")
            [(JNum 1, record 1); (JNum 2, record 2)]]
  /\ db (snd outcome) <> db1.
Proof. repeat split. vm_compute. discriminate. Qed.

(** A table [ghost] with one row that the manifest does not list: the
    import fails although missing tables are accepted. *)
Lemma unlisted_table_fails_witness :
  exists e, fst (importInto db1 (Blob (withGhost [record 9])) acceptingMissing) = inl e.
Proof.
  apply (unlisted_table_fails db1 (Blob (withGhost [record 9])) acceptingMissing
           [] [entry "t" [record 1; record 2]] (entry "ghost" [record 9])).
  - reflexivity.
  - constructor.
  - exists (mkArray [record 9] true). split; [reflexivity | right; discriminate].
  - intros ts Hts. vm_compute in Hts. injection Hts as <-.
    constructor; [discriminate | constructor].
Defined.

(** C10, counterexample: the queue holds an entry for [ghost], which the
    manifest does not list; its buffer is complete and empty, and the import
    succeeds with default options. *)
Lemma unlisted_empty_table_is_accepted :
  let stream := loadedStream (Blob (withGhost [])) size in
  data (dbExportOf stream) = Some [entry "ghost" []; entry "t" [record 1; record 2]]
  /\ tables (dbExportOf stream) = Some [mkSchema "t" "id" 2]
  /\ fst (importInto db1 (Blob (withGhost [])) defaultOptions) = inr tt.
Proof. repeat split. Qed.

(** C5, at the failing input: the export holds a table [pets], listed in
    the manifest with its one row, which the target database lacks, and
    [acceptMissingTables] is on.  [db.table("pets")] throws at line 92,
    before lines 94-99 are reached: the import fails with that error instead
    of skipping [pets], and table [t] of the same export is not written.
    Without the override the failure is the same one, not
    MissingTableError. *)
Theorem missing_table_fails_despite_override :
  data (dbExportOf (loadedStream (Blob (withPets [record 7])) size))
    = Some [entry "pets" [record 7]; entry "t" [record 1; record 2]]
  /\ db_table db1 "pets" = inl (StorageError "InvalidTableError")
  /\ acceptMissingTables acceptingMissing = true
  /\ fst (importInto db1 (Blob (withPets [record 7])) acceptingMissing)
       = inl (StorageError "InvalidTableError")
  /\ written (snd (importInto db1 (Blob (withPets [record 7])) acceptingMissing))
       = []
  /\ db (snd (importInto db1 (Blob (withPets [record 7])) acceptingMissing)) = db1
  /\ fst (importInto db1 (Blob (withPets [record 7])) defaultOptions)
       = inl (StorageError "InvalidTableError").
Proof. repeat split. Qed.

(** C6, at the failing input: table [t] with its two rows, complete, is
    alone in the queue and is imported without error.  The inner pass
    writes both rows and leaves the shared buffer as it was, the pair of
    rows still in it; the clean-up then removes the entry from the queue.
    The entry is removed with two rows buffered. *)
Theorem entry_removed_with_rows_buffered :
  let w := loaded db1 oneSlice in
  let w1 := snd (innerPass defaultOptions w) in
  let w2 := snd ((innerPass defaultOptions ;; dropLeading) w) in
  data (dbExportOf (jsonStream w)) = Some [entry "t" [record 1; record 2]]
  /\ fst (innerPass defaultOptions w) = inr tt
  /\ written w1 = [mkWrite "t" false [record 1; record 2] None]
  /\ data (dbExportOf (jsonStream w1)) = Some [entry "t" [record 1; record 2]]
  /\ data (dbExportOf (jsonStream w2)) = Some [].
Proof. repeat split. Qed.

(** * Filtering, progress counters and repeated passes *)

Section Counters.

Context {DB : Type} `{Collaborators DB}.

(** For an inbound table the values written are the revived rows that pass
    the filter, in their order, and no keys are given. *)
Lemma inbound_batch_filtered (options : ImportOptions) (tableExport : TableExport)
    (buffer : JsArray) (f : string -> jsval -> option jsval -> bool) :
  inbound tableExport = true ->
  rowFilter options = Some f ->
  let rows := js_map revive buffer in
  keysAndValues tableExport rows (filteredRowsOf options tableExport rows)
    = (None,
       filter (fun value => f (tableName tableExport) value None)
              (map revive (items buffer))).
Proof.
  intros Hin Hf rows. unfold keysAndValues, filteredRowsOf.
  rewrite Hin, Hf. reflexivity.
Qed.

(** For a non-inbound table the keys written are those of the rows that pass
    the filter, while the values written are those of all the rows. *)
Lemma outbound_batch_values (options : ImportOptions) (tableExport : TableExport)
    (buffer : JsArray) (f : string -> jsval -> option jsval -> bool) :
  inbound tableExport = false ->
  rowFilter options = Some f ->
  let rows := js_map revive buffer in
  keysAndValues tableExport rows (filteredRowsOf options tableExport rows)
    = (Some (map (fun row => js_index row 0)
               (filter (fun row => f (tableName tableExport)
                                     (js_index row 1) (Some (js_index row 0)))
                       (map revive (items buffer)))),
       map (fun row => js_index row 1) (map revive (items buffer))).
Proof.
  intros Hin Hf rows. unfold keysAndValues, filteredRowsOf.
  rewrite Hin, Hf. reflexivity.
Qed.

(** A batch adds the number of its rows to [completedRows] and leaves
    [completedTables] alone, complete buffer or not: the flag is read from
    the array that [map] returned. *)
Lemma advance_batch (buffer : JsArray) (w : World DB) :
  let w' := snd (advance (js_map revive buffer) w) in
  completedRows (progress w')
    = completedRows (progress w) + Z.of_nat (length (items buffer))
  /\ completedTables (progress w') = completedTables (progress w).
Proof. simpl. rewrite length_map. split; reflexivity. Qed.

(** The snapshots shown to the observer, latest first, never grow in
    [completedRows], and none exceeds [bound]. *)
Fixpoint descending (bound : Z) (calls : list (ImportProgress * bool)) : Prop :=
  match calls with
  | [] => True
  | call :: earlier =>
      completedRows (fst call) <= bound
      /\ descending (completedRows (fst call)) earlier
  end.

Lemma descending_weaken (b b' : Z) calls :
  b <= b' -> descending b calls -> descending b' calls.
Proof.
  destruct calls as [| call earlier]; simpl; [trivial |].
  intros Hle [Hb Hd]. split; [lia | exact Hd].
Qed.

Definition monotone (w : World DB) : Prop :=
  descending (completedRows (progress w)) (observed w).

Lemma notify_monotone options :
  hoare monotone (notify options) (fun _ => monotone) (fun _ => monotone).
Proof.
  intros w Hw. unfold notify.
  destruct (progressCallback options) as [cb |]; [| exact Hw].
  destruct (cb _ _); (split; [simpl; lia | exact Hw]).
Qed.

Lemma advance_monotone (rows : JsArray) :
  hoare monotone (advance rows) (fun _ => monotone) (fun _ => monotone).
Proof.
  intros w Hw. unfold monotone in *. simpl.
  eapply descending_weaken; [| exact Hw]. lia.
Qed.

Lemma importAll_monotone options :
  hoare monotone (importAll options) (fun _ => monotone) (fun _ => monotone).
Proof.
  apply keeps_importAll.
  - intros e w Hw. exact Hw.
  - apply notify_monotone.
  - intros d w Hw. exact Hw.
  - intros c w Hw. exact Hw.
  - intros buffer. apply advance_monotone.
  - intros s w Hw. exact Hw.
Qed.

Lemma transaction_keeps (Inv : World DB -> Prop) (body : M DB unit) :
  (forall d w, Inv w -> Inv (setDb d w)) ->
  hoare Inv body (fun _ => Inv) (fun _ => Inv) ->
  hoare Inv (transaction body) (fun _ => Inv) (fun _ => Inv).
Proof.
  intros Hdb Hbody w Hw. specialize (Hbody w Hw). unfold transaction.
  destruct (body w) as [[e | []] w1]; [apply Hdb |]; exact Hbody.
Qed.

(** Through a whole import, failed or not, [completedRows] never decreases
    from one invocation of the observer to the next. *)
Lemma completedRows_monotone (d : DB) (exportedData : ExportedData)
    (options : ImportOptions) :
  monotone (snd (importInto d exportedData options)).
Proof.
  unfold importInto.
  destruct (loadUntilWeGotEnoughData _ _ _) as [e | stream]; [exact I |].
  destruct (negb (acceptNameDiff options) && _); [exact I |].
  destruct (negb (acceptVersionDiff options) && _); [exact I |].
  destruct (tables (dbExportOf stream)) as [ts |]; [| exact I].
  set (w1 := setProgress (initialProgress ts) _).
  assert (Hrun : hoare monotone
                   (notify options ;;
                    (if noTransaction options
                     then importAll options
                     else transaction (importAll options)) ;;
                    markDone ;; notify options)
                   (fun _ => monotone) (fun _ => monotone)).
  { apply (hoare_bind _ _ _ (fun _ => monotone)); [apply notify_monotone | intros _].
    apply (hoare_bind _ _ _ (fun _ => monotone)).
    - destruct (noTransaction options);
        [apply importAll_monotone
        | apply transaction_keeps; [intros d' w Hw; exact Hw | apply importAll_monotone]].
    - intros _.
      apply (hoare_bind _ _ _ (fun _ => monotone)); [| intros _; apply notify_monotone].
      intros w Hw. exact Hw. }
  specialize (Hrun w1 I).
  destruct ((notify options ;; _) w1) as [[e | []] w']; exact Hrun.
Qed.

(** [completedTables] is still 0 when the import ends, however many tables
    it has gone through. *)
Lemma completedTables_stays_zero (d : DB) (exportedData : ExportedData)
    (options : ImportOptions) :
  completedTables (progress (snd (importInto d exportedData options))) = 0.
Proof.
  set (zero := fun w : World DB => completedTables (progress w) = 0).
  unfold importInto.
  destruct (loadUntilWeGotEnoughData _ _ _) as [e | stream]; [reflexivity |].
  destruct (negb (acceptNameDiff options) && _); [reflexivity |].
  destruct (negb (acceptVersionDiff options) && _); [reflexivity |].
  destruct (tables (dbExportOf stream)) as [ts |]; [| reflexivity].
  set (w1 := setProgress (initialProgress ts) _).
  assert (Hnotify : forall o, hoare zero (notify o) (fun _ => zero) (fun _ => zero)).
  { intros o w Hw. destruct (notify_fields o w) as (_ & Hp & _).
    unfold zero in *.
    destruct (notify o w) as [[e | []] w']; simpl in Hp; rewrite Hp; exact Hw. }
  assert (Hall : hoare zero (importAll options) (fun _ => zero) (fun _ => zero)).
  { apply keeps_importAll; try (intros; assumption).
    - exact Hnotify.
    - intros buffer w Hw. exact Hw. }
  assert (Hrun : hoare zero
                   (notify options ;;
                    (if noTransaction options
                     then importAll options
                     else transaction (importAll options)) ;;
                    markDone ;; notify options)
                   (fun _ => zero) (fun _ => zero)).
  { apply (hoare_bind _ _ _ (fun _ => zero)); [apply Hnotify | intros _].
    apply (hoare_bind _ _ _ (fun _ => zero)).
    - destruct (noTransaction options);
        [apply Hall | apply transaction_keeps; [intros d' w Hw; exact Hw | apply Hall]].
    - intros _.
      apply (hoare_bind _ _ _ (fun _ => zero)); [| intros _; apply Hnotify].
      intros w Hw. exact Hw. }
  specialize (Hrun w1 eq_refl).
  destruct ((notify options ;; _) w1) as [[e | []] w']; exact Hrun.
Qed.

End Counters.

(** C1, at the failing input: the outbound table [kv] holds the rows
    [[1, "a"]] and [[2, "b"]], and the filter turns down the row with key 1.
    The one bulk write issued has the key of the surviving row only, and
    the values of both rows: the value "a" of the row that failed the
    filter is handed to the storage engine. *)
Theorem outbound_filter_keeps_all_values :
  let outcome := importInto dbKv (Blob outbound) withFilter in
  notKeyOne "kv" (JStr "a") (Some (JNum 1)) = false
  /\ notKeyOne "kv" (JStr "b") (Some (JNum 2)) = true
  /\ written (snd outcome)
       = [mkWrite "kv" false [JStr "a"; JStr "b"] (Some [JNum 2])].
Proof. repeat split. Qed.

(** C2, at the failing input: table [t] arrives over two slices, one row in
    each.  The first pass writes row 1; the second pass, after the pull,
    writes row 1 again together with row 2.  With the default [bulkAdd] the
    storage engine turns the second write down as a duplicate and the import
    of a well-formed export fails. *)
Theorem rows_written_again_on_later_pass :
  written (snd (importInto db1 (Blob threeSlices) withOverwrite))
    = [mkWrite "t" true [record 1; record 2] None;
       mkWrite "t" true [record 1] None]
  /\ fst (importInto db1 (Blob threeSlices) withOverwrite) = inr tt
  /\ fst (importInto db1 (Blob threeSlices) defaultOptions)
       = inl (StorageError "ConstraintError").
Proof. repeat split. Qed.

(** C3, at the failing input: the export has one table, delivered to
    completion in one slice and written in one batch of two rows.  The
    import succeeds; the final progress has [completedRows = 2] and
    [completedTables = 0] against [totalTables = 1]. *)
Theorem completed_tables_not_counted :
  let outcome := importInto db1 (Blob oneSlice) defaultOptions in
  data (dbExportOf (loadedStream (Blob oneSlice) size))
    = Some [entry "t" [record 1; record 2]]
  /\ fst outcome = inr tt
  /\ progress (snd outcome) = mkProgress 1 0 (Some 2) 2 true.
Proof. repeat split. Qed.

(** C9, at the failing input: table [t], two rows as its manifest says,
    arrives over two slices.  The observer is shown [completedRows] 0, 0, 1
    and finally 3, with [totalRows] known to be 2: the row of the first
    batch is counted again with the second. *)
Theorem completed_rows_exceed_total :
  let outcome := importInto db1 (Blob threeSlices) withOverwrite in
  fst outcome = inr tt
  /\ map (fun call => completedRows (fst call)) (observed (snd outcome))
       = [3; 1; 0; 0]
  /\ map (fun call => totalRows (fst call)) (observed (snd outcome))
       = [Some 2; Some 2; Some 2; Some 2].
Proof. repeat split. Qed.

(** * Further properties of the loader *)

(** [k] pulls in a row. *)
Definition pulls (k : nat) (s : JsonStream) (size : Z) : JsonStream :=
  Nat.iter k (fun s' => pull s' size) s.

Lemma pulls_succ_r (k : nat) (s : JsonStream) (size : Z) :
  pulls (S k) s size = pulls k (pull s size) size.
Proof. unfold pulls. apply Nat.iter_succ_r. Qed.

Lemma loadLoop_pulls (n : nat) (s : JsonStream) (size : Z) :
  (length (pending s) <= n)%nat ->
  exists k,
    loadLoop n s size = pulls k s size
    /\ forall j, (j < k)%nat ->
         eof (pulls j s size) = false /\ headerPending (pulls j s size) = true.
Proof.
  revert s. induction n as [| n IH]; intros s Hn; simpl.
  - exists O. split; [| intros j Hj; lia].
    destruct (negb (eof s) && headerPending s); reflexivity.
  - destruct (eof s) eqn:Heof; simpl.
    + exists O. split; [reflexivity | intros j Hj; lia].
    + destruct (headerPending s) eqn:Hhead.
      * destruct (IH (pull s size)) as (k & Hk & Hbefore).
        { unfold pull. unfold eof in Heof.
          destruct (pending s); [discriminate | simpl in *; lia]. }
        exists (S k). split.
        -- rewrite pulls_succ_r. exact Hk.
        -- intros [| j] Hj; [split; assumption |].
           rewrite pulls_succ_r. apply Hbefore. lia.
      * exists O. split; [reflexivity | intros j Hj; lia].
Qed.

(** X1: the stream the loader works on is the input after some number of
    pulls; before each of these pulls the input was not exhausted and the
    table queue had not appeared, and after the last one the input is
    exhausted or the queue is there.  The loader pulls as long as it has to
    and no longer. *)
Theorem loader_pulls_no_more_than_needed (exportedData : ExportedData) (size : Z) :
  exists k,
    loadedStream exportedData size = pulls k (toStream exportedData) size
    /\ (forall j, (j < k)%nat ->
          eof (pulls j (toStream exportedData) size) = false
          /\ headerPending (pulls j (toStream exportedData) size) = true)
    /\ (eof (loadedStream exportedData size) = true
        \/ headerPending (loadedStream exportedData size) = false).
Proof.
  unfold loadedStream.
  destruct (loadLoop_pulls (length (pending (toStream exportedData)))
              (toStream exportedData) size (Nat.le_refl _)) as (k & Hk & Hbefore).
  exists k. repeat split; try assumption; try (apply Hbefore; assumption).
  apply loadLoop_exit. apply Nat.le_refl.
Qed.

Lemma loadLoop_settled (n : nat) (s : JsonStream) (size : Z) :
  eof s = true \/ headerPending s = false ->
  loadLoop n s size = s.
Proof.
  intros Hs. destruct n; simpl;
    destruct Hs as [Hs | Hs]; rewrite Hs; simpl;
    try reflexivity; rewrite andb_false_r; reflexivity.
Qed.

(** X2: the stream the loader returns can be handed to the loader again,
    with any byte budget: nothing more is pulled and the same stream comes
    back.  [importDB] relies on this when it passes its stream to
    [importInto]. *)
Theorem loader_idempotent (V : Z) (exportedData : ExportedData) (size size' : Z)
    (stream : JsonStream) :
  loadUntilWeGotEnoughData V exportedData size = inr stream ->
  loadUntilWeGotEnoughData V (Stream stream) size' = inr stream.
Proof.
  unfold loadUntilWeGotEnoughData. intros Hload.
  destruct (validateHeader V (result (loadedStream exportedData size)))
    as [e | []] eqn:Hvalid; [discriminate |].
  injection Hload as <-.
  assert (Hsame : loadedStream (Stream (loadedStream exportedData size)) size'
                  = loadedStream exportedData size).
  { unfold loadedStream at 1. simpl. apply loadLoop_settled.
    unfold loadedStream. apply loadLoop_exit. apply Nat.le_refl. }
  rewrite Hsame, Hvalid. reflexivity.
Qed.

Lemma loader_idempotent_witness :
  loadUntilWeGotEnoughData 1
    (Stream (loadedStream (Blob threeSlices) size)) 1024
    = inr (loadedStream (Blob threeSlices) size).
Proof. apply (loader_idempotent 1 (Blob threeSlices) size). reflexivity. Defined.

(** * Further properties of [importInto] *)

Section Protocol.

Context {DB : Type} `{Collaborators DB}.

(** X3: when the loader accepts the header and the name check passes (the
    names agree or [acceptNameDiff] is on), an export whose
    [databaseVersion] is not the target's [verno] is turned down with
    VersionMismatchError unless [acceptVersionDiff] is on; the target
    database is as it was, nothing has been written and the observer has
    not been called. *)
Theorem version_mismatch_rejected (d : DB) (exportedData : ExportedData)
    (options : ImportOptions) (stream : JsonStream) :
  loadUntilWeGotEnoughData VERSION exportedData (chunkSize options) = inr stream ->
  acceptNameDiff options = true
    \/ databaseName (dbExportOf stream) = Some (db_name d) ->
  acceptVersionDiff options = false ->
  databaseVersion (dbExportOf stream) <> Some (db_verno d) ->
  let outcome := importInto d exportedData options in
  fst outcome = inl VersionMismatchError
  /\ db (snd outcome) = d
  /\ written (snd outcome) = []
  /\ observed (snd outcome) = [].
Proof.
  intros Hload Hname Haccept Hversion outcome.
  unfold outcome, importInto. rewrite Hload, Haccept.
  assert (Hnametest : negb (acceptNameDiff options)
                      && negb (match databaseName (dbExportOf stream) with
                               | Some n => (db_name d =? n)%string
                               | None => false
                               end) = false).
  { destruct Hname as [Hname | Hname]; rewrite Hname; simpl; [reflexivity |].
    rewrite String.eqb_refl. apply andb_false_r. }
  rewrite Hnametest.
  assert (Htest : match databaseVersion (dbExportOf stream) with
                  | Some v => db_verno d =? v
                  | None => false
                  end = false).
  { destruct (databaseVersion (dbExportOf stream)) as [v |]; [| reflexivity].
    destruct (Z.eqb_spec (db_verno d) v); [congruence | reflexivity]. }
  rewrite Htest. simpl. repeat split.
Qed.

Lemma notify_error options (w w' : World DB) e :
  notify options w = (inl e, w') -> e = AbortedError.
Proof.
  unfold notify. destruct (progressCallback options) as [cb |]; [| discriminate].
  destruct (cb _ _); [| discriminate].
  intros [= <- _]. reflexivity.
Qed.

(** X4: in transactional mode a failed import leaves the target database
    exactly as it was, whatever the error (a bad header, a mismatch, a
    missing table, a rejected write, an abort), with one exception: the
    abort that the observer asks for when it is shown [done = true]. *)
Theorem transactional_failure_leaves_database (d : DB) (exportedData : ExportedData)
    (options : ImportOptions) (e : Error) :
  noTransaction options = false ->
  let outcome := importInto d exportedData options in
  fst outcome = inl e ->
  e <> AbortedError \/ isDone (progress (snd outcome)) = false ->
  db (snd outcome) = d.
Proof.
  intros Hmode outcome. unfold outcome, importInto. rewrite Hmode.
  destruct (loadUntilWeGotEnoughData _ _ _) as [e0 | stream]; [reflexivity |].
  destruct (negb (acceptNameDiff options) && _); [reflexivity |].
  destruct (negb (acceptVersionDiff options) && _); [reflexivity |].
  destruct (tables (dbExportOf stream)) as [ts |]; [| reflexivity].
  set (w1 := setProgress (initialProgress ts) _).
  assert (Hd1 : db w1 = d) by reflexivity. clearbody w1.
  destruct (notify_fields options w1) as (_ & _ & Hdb2 & _).
  destruct (notify options w1) as [[e1 | []] w2] eqn:Hnotify1; simpl in Hdb2.
  { rewrite (bind_inl _ _ _ _ _ Hnotify1). simpl. congruence. }
  rewrite (bind_inr _ _ _ _ _ Hnotify1).
  destruct (transaction (importAll options) w2) as [[e2 | []] w3] eqn:Hrun.
  { rewrite (bind_inl _ _ _ _ _ Hrun). simpl. intros _ _.
    apply transaction_rollback in Hrun. congruence. }
  rewrite (bind_inr _ _ _ _ _ Hrun).
  rewrite (bind_inr markDone _ w3 tt _ eq_refl).
  set (w4 := setProgress _ w3).
  assert (Hp4 : isDone (progress w4) = true) by reflexivity. clearbody w4.
  destruct (notify_fields options w4) as (_ & Hp5 & _).
  destruct (notify options w4) as [[e5 | []] w5] eqn:Hnotify2;
    simpl in *; [| discriminate].
  intros [= <-] [Hne | Hnd].
  - apply notify_error in Hnotify2. contradiction.
  - congruence.
Qed.

(** X5: if the observer asks to abort on its first invocation, the import
    fails with AbortedError before the import loop is entered: nothing has
    been written and the database is as it was, in transactional mode and
    with [noTransaction] alike.  The snapshot it was shown has the totals of
    the manifest and zero completed rows and tables. *)
Theorem abort_on_first_call_writes_nothing (d : DB) (exportedData : ExportedData)
    (options : ImportOptions) (stream : JsonStream) (ts : list TableSchema)
    (callback : nat -> ImportProgress -> bool) :
  loadUntilWeGotEnoughData VERSION exportedData (chunkSize options) = inr stream ->
  acceptNameDiff options = true
    \/ databaseName (dbExportOf stream) = Some (db_name d) ->
  acceptVersionDiff options = true
    \/ databaseVersion (dbExportOf stream) = Some (db_verno d) ->
  tables (dbExportOf stream) = Some ts ->
  progressCallback options = Some callback ->
  callback O (initialProgress ts) = true ->
  let outcome := importInto d exportedData options in
  fst outcome = inl AbortedError
  /\ db (snd outcome) = d
  /\ written (snd outcome) = []
  /\ observed (snd outcome) = [(initialProgress ts, true)].
Proof.
  intros Hload Hname Hversion Hts Hcb Habort outcome.
  unfold outcome, importInto. rewrite Hload.
  assert (Hnametest : negb (acceptNameDiff options)
                      && negb (match databaseName (dbExportOf stream) with
                               | Some n => (db_name d =? n)%string
                               | None => false
                               end) = false).
  { destruct Hname as [Hname | Hname]; rewrite Hname; simpl; [reflexivity |].
    rewrite String.eqb_refl. apply andb_false_r. }
  assert (Hversiontest : negb (acceptVersionDiff options)
                         && negb (match databaseVersion (dbExportOf stream) with
                                  | Some v => db_verno d =? v
                                  | None => false
                                  end) = false).
  { destruct Hversion as [Hv | Hv]; rewrite Hv; simpl; [reflexivity |].
    rewrite Z.eqb_refl. apply andb_false_r. }
  rewrite Hnametest, Hversiontest, Hts.
  set (w1 := setProgress (initialProgress ts) _).
  assert (Hnotify : notify options w1
                    = (inl AbortedError,
                       {| jsonStream := jsonStream w1; progress := progress w1;
                          db := db w1;
                          observed := (initialProgress ts, true) :: observed w1;
                          written := written w1 |})).
  { unfold notify. rewrite Hcb. simpl. rewrite Habort. reflexivity. }
  rewrite (bind_inl _ _ _ _ _ Hnotify). repeat split.
Qed.

End Protocol.

(** The second pass over [t] is turned down by the storage engine as a
    duplicate; the row written by the first pass is rolled back. *)
Lemma transactional_failure_leaves_database_witness :
  fst (importInto db1 (Blob threeSlices) defaultOptions)
    = inl (StorageError "ConstraintError")
  /\ written (snd (importInto db1 (Blob threeSlices) defaultOptions)) <> []
  /\ db (snd (importInto db1 (Blob threeSlices) defaultOptions)) = db1.
Proof.
  split; [reflexivity | split; [discriminate |]].
  apply (transactional_failure_leaves_database db1 (Blob threeSlices) defaultOptions
           (StorageError "ConstraintError")).
  - reflexivity.
  - reflexivity.
  - left. discriminate.
Defined.

(** Export "db1" version 1 into a database "db1" at version 2. *)
Lemma version_mismatch_rejected_witness :
  fst (importInto (Memory.mkDb "db1" 2 [Memory.mkStored (mkTable "t" "id") []])
         (Blob oneSlice) defaultOptions)
    = inl VersionMismatchError.
Proof.
  destruct (version_mismatch_rejected
              (Memory.mkDb "db1" 2 [Memory.mkStored (mkTable "t" "id") []])
              (Blob oneSlice) defaultOptions
              (loadedStream (Blob oneSlice) size)) as (Hfail & _).
  - reflexivity.
  - right. reflexivity.
  - reflexivity.
  - discriminate.
  - exact Hfail.
Defined.

(** An observer that always asks to abort, with [noTransaction]. *)
Lemma abort_on_first_call_writes_nothing_witness :
  let options :=
    {| acceptMissingTables := false; acceptVersionDiff := false;
       acceptNameDiff := false; acceptChangedPrimaryKey := false;
       overwriteValues := false; clearTablesBeforeImport := false;
       noTransaction := true; numKilobytesPerChunk := None;
       rowFilter := None; progressCallback := Some (fun _ _ => true) |} in
  fst (importInto db1 (Blob oneSlice) options) = inl AbortedError
  /\ db (snd (importInto db1 (Blob oneSlice) options)) = db1.
Proof.
  intros options.
  destruct (abort_on_first_call_writes_nothing db1 (Blob oneSlice) options
              (loadedStream (Blob oneSlice) size) [mkSchema "t" "id" 2]
              (fun _ _ => true)) as (Hfail & Hdb & _).
  - reflexivity.
  - right. reflexivity.
  - right. reflexivity.
  - reflexivity.
  - reflexivity.
  - reflexivity.
  - split; [exact Hfail | exact Hdb].
Defined.

(** * What the observer is shown *)

Section Snapshots.

Context {DB : Type} `{Collaborators DB}.

(** The run of [importInto] once the progress object exists. *)
Definition mainRun (options : ImportOptions) : M DB unit :=
  notify options ;;
  (if noTransaction options
   then importAll options
   else transaction (importAll options)) ;;
  markDone ;;
  notify options.

(** An invariant of the loop that does not depend on the database holds
    when the loop is left, normally or by an error. *)
Lemma body_keeps (Inv : World DB -> Prop) (options : ImportOptions) :
  (forall o, hoare Inv (notify o) (fun _ => Inv) (fun _ => Inv)) ->
  (forall d w, Inv w -> Inv (setDb d w)) ->
  (forall c w, Inv w ->
     Inv {| jsonStream := jsonStream w; progress := progress w; db := db w;
            observed := observed w; written := c :: written w |}) ->
  (forall buffer, hoare Inv (advance (js_map revive buffer))
                    (fun _ => Inv) (fun _ => Inv)) ->
  (forall s w, Inv w -> Inv (setStream s w)) ->
  hoare Inv (if noTransaction options
             then importAll options
             else transaction (importAll options))
    (fun _ => Inv) (fun _ => Inv).
Proof.
  intros Hnotify Hdb Hwritten Hadvance Hstream.
  assert (Hall : hoare Inv (importAll options) (fun _ => Inv) (fun _ => Inv)).
  { apply keeps_importAll; try assumption. intros e w Hw. exact Hw. }
  destruct (noTransaction options); [exact Hall |].
  apply transaction_keeps; assumption.
Qed.

(** No snapshot so far has [done = true], nor has the progress object. *)
Definition notDone (w : World DB) : Prop :=
  isDone (progress w) = false
  /\ Forall (fun call => isDone (fst call) = false) (observed w).

Lemma notify_notDone options :
  hoare notDone (notify options) (fun _ => notDone) (fun _ => notDone).
Proof.
  intros w [Hp Ho]. unfold notify.
  destruct (progressCallback options) as [cb |]; [| split; assumption].
  destruct (cb _ _); (split; [exact Hp | constructor; [exact Hp | exact Ho]]).
Qed.

Lemma body_notDone options :
  hoare notDone (if noTransaction options
                 then importAll options
                 else transaction (importAll options))
    (fun _ => notDone) (fun _ => notDone).
Proof.
  apply body_keeps; try (intros; assumption).
  - apply notify_notDone.
  - intros buffer w Hw. exact Hw.
Qed.

Lemma mainRun_done_last options (w : World DB) :
  notDone w ->
  let outcome := mainRun options w in
  Forall (fun call => isDone (fst call) = false) (tl (observed (snd outcome)))
  /\ (fst outcome = inr tt -> progressCallback options <> None ->
      exists p earlier,
        observed (snd outcome) = (p, false) :: earlier /\ isDone p = true).
Proof.
  intros Hw. unfold mainRun.
  assert (Htl : forall w' : World DB, notDone w' ->
            Forall (fun call => isDone (fst call) = false) (tl (observed w'))).
  { intros w' [_ Ho]. destruct (observed w'); [constructor |].
    inversion Ho; assumption. }
  pose proof (notify_notDone options w Hw) as Hn1.
  destruct (notify options w) as [[e | []] w2] eqn:Hnotify1.
  { rewrite (bind_inl _ _ _ _ _ Hnotify1). simpl.
    split; [apply Htl, Hn1 | discriminate]. }
  rewrite (bind_inr _ _ _ _ _ Hnotify1).
  pose proof (body_notDone options w2 Hn1) as Hbody.
  destruct ((if noTransaction options
             then importAll options
             else transaction (importAll options)) w2) as [[e | []] w3] eqn:Hrun.
  { rewrite (bind_inl _ _ _ _ _ Hrun). simpl.
    split; [apply Htl, Hbody | discriminate]. }
  rewrite (bind_inr _ _ _ _ _ Hrun).
  rewrite (bind_inr markDone _ w3 tt _ eq_refl).
  destruct Hbody as [_ Ho3].
  set (w4 := setProgress _ w3).
  assert (Ho4 : observed w4 = observed w3) by reflexivity.
  assert (Hp4 : isDone (progress w4) = true) by reflexivity.
  clearbody w4. unfold notify.
  destruct (progressCallback options) as [cb |]; simpl.
  - destruct (cb _ _); simpl.
    + split; [rewrite Ho4; exact Ho3 | discriminate].
    + split; [rewrite Ho4; exact Ho3 |].
      intros _ _. exists (progress w4), (observed w4). split; [reflexivity | exact Hp4].
  - split; [| intros _ Hnone; contradiction].
    rewrite Ho4. destruct (observed w3); [constructor |].
    inversion Ho3; assumption.
Qed.

(** X6: a snapshot with [done = true] is shown to the observer at most
    once, and then as the latest one: every earlier snapshot has
    [done = false].  When the import succeeds and an observer is configured,
    the latest snapshot does have [done = true], and the observer answered
    it with false. *)
Theorem done_is_reported_last (d : DB) (exportedData : ExportedData)
    (options : ImportOptions) :
  let outcome := importInto d exportedData options in
  Forall (fun call => isDone (fst call) = false) (tl (observed (snd outcome)))
  /\ (fst outcome = inr tt -> progressCallback options <> None ->
      exists p earlier,
        observed (snd outcome) = (p, false) :: earlier /\ isDone p = true).
Proof.
  intros outcome. unfold outcome, importInto.
  destruct (loadUntilWeGotEnoughData _ _ _) as [e | stream];
    [split; [constructor | discriminate] |].
  destruct (negb (acceptNameDiff options) && _);
    [split; [constructor | discriminate] |].
  destruct (negb (acceptVersionDiff options) && _);
    [split; [constructor | discriminate] |].
  destruct (tables (dbExportOf stream)) as [ts |];
    [| split; [constructor | discriminate]].
  apply (mainRun_done_last options). split; [reflexivity | constructor].
Qed.

(** The totals of a snapshot are those of the manifest [ts], and it counts
    no completed table. *)
Definition totalsOf (ts : list TableSchema) (p : ImportProgress) : Prop :=
  totalTables p = Z.of_nat (length ts)
  /\ totalRows p = Some (fold_left (fun acc c => acc + rowCount c) ts 0)
  /\ completedTables p = 0.

Definition steady (ts : list TableSchema) (w : World DB) : Prop :=
  totalsOf ts (progress w)
  /\ Forall (fun call => totalsOf ts (fst call)) (observed w).

Lemma notify_steady ts options :
  hoare (steady ts) (notify options) (fun _ => steady ts) (fun _ => steady ts).
Proof.
  intros w [Hp Ho]. unfold notify.
  destruct (progressCallback options) as [cb |]; [| split; assumption].
  destruct (cb _ _); (split; [exact Hp | constructor; [exact Hp | exact Ho]]).
Qed.

(** X7: every snapshot shown to the observer carries the same totals, those
    computed from the manifest when the loader returned ([totalTables] its
    length, [totalRows] the sum of its [rowCount]s), and
    [completedTables = 0]: the counter of completed tables is not advanced
    by any batch. *)
Theorem snapshots_share_totals (d : DB) (exportedData : ExportedData)
    (options : ImportOptions) (stream : JsonStream) (ts : list TableSchema) :
  loadUntilWeGotEnoughData VERSION exportedData (chunkSize options) = inr stream ->
  tables (dbExportOf stream) = Some ts ->
  Forall (fun call => totalsOf ts (fst call))
    (observed (snd (importInto d exportedData options))).
Proof.
  intros Hload Hts. unfold importInto. rewrite Hload.
  destruct (negb (acceptNameDiff options) && _); [constructor |].
  destruct (negb (acceptVersionDiff options) && _); [constructor |].
  rewrite Hts.
  set (w1 := setProgress (initialProgress ts) _).
  assert (Hw1 : steady ts w1) by (repeat split; constructor).
  clearbody w1.
  assert (Hrun : hoare (steady ts) (mainRun options)
                   (fun _ => steady ts) (fun _ => steady ts)).
  { unfold mainRun.
    apply (hoare_bind _ _ _ (fun _ => steady ts)); [apply notify_steady | intros _].
    apply (hoare_bind _ _ _ (fun _ => steady ts)).
    - apply body_keeps; try (intros; assumption).
      + apply notify_steady.
      + intros buffer w [(Ht & Hr & Hc) Ho]. repeat split; assumption.
    - intros _.
      apply (hoare_bind _ _ _ (fun _ => steady ts)); [| intros _; apply notify_steady].
      intros w [(Ht & Hr & Hc) Ho]. repeat split; assumption. }
  specialize (Hrun w1 Hw1). unfold mainRun in Hrun.
  destruct ((notify options ;; _) w1) as [[e | []] w']; apply Hrun.
Qed.

Lemma descending_adjacent (bound : Z) (later earlier : list (ImportProgress * bool))
    (p q : ImportProgress * bool) :
  descending bound (later ++ q :: p :: earlier) ->
  completedRows (fst p) <= completedRows (fst q).
Proof.
  revert bound. induction later as [| call later IH]; intros bound; simpl.
  - intros (_ & Hp & _). exact Hp.
  - intros [_ Hrest]. exact (IH _ Hrest).
Qed.

(** X8: from one invocation of the observer to the next, [completedRows]
    never decreases: if snapshot [p] was shown just before snapshot [q],
    then [completedRows p <= completedRows q]. *)
Theorem completed_rows_never_decrease (d : DB) (exportedData : ExportedData)
    (options : ImportOptions) (later earlier : list (ImportProgress * bool))
    (p q : ImportProgress * bool) :
  observed (snd (importInto d exportedData options)) = later ++ q :: p :: earlier ->
  completedRows (fst p) <= completedRows (fst q).
Proof.
  intros Hobserved.
  pose proof (completedRows_monotone d exportedData options) as Hmono.
  unfold monotone in Hmono. rewrite Hobserved in Hmono.
  exact (descending_adjacent _ _ _ _ _ Hmono).
Qed.

End Snapshots.

(** * Further properties of a batch *)

Fixpoint hasComma (s : string) : bool :=
  match s with
  | EmptyString => false
  | String c rest => Ascii.eqb c "," || hasComma rest
  end.

(** X9: [split(',')[0]] as the primary-key check uses it: the result holds
    no comma, and the schema string is either that result alone or that
    result, a comma and a remainder.  Only what precedes the first comma of
    the exported schema is compared with the target's primary key. *)
Theorem beforeComma_spec (s : string) :
  hasComma (beforeComma s) = false
  /\ (s = beforeComma s
      \/ exists rest, s = (beforeComma s ++ String "," rest)%string).
Proof.
  induction s as [| c rest [IHno IHshape]]; simpl.
  - split; [reflexivity | left; reflexivity].
  - destruct (Ascii.eqb_spec c ","); simpl.
    + split; [reflexivity |]. right. exists rest. subst c. reflexivity.
    + split.
      * destruct (Ascii.eqb_spec c ","); [contradiction | exact IHno].
      * destruct IHshape as [Heq | [rest' Heq]].
        -- left. rewrite <- Heq. reflexivity.
        -- right. exists rest'. rewrite <- Heq. reflexivity.
Qed.

Section Batches.

Context {DB : Type} `{Collaborators DB}.

(** The body of the loop for a batch that passes every check. *)
Lemma importTable_checked (options : ImportOptions) (tableExport : TableExport)
    (buffer : JsArray) (sch : string) (table : Table) (w w1 : World DB) :
  rows tableExport = Some buffer ->
  (complete buffer = false \/ items buffer <> []) ->
  notify options w = (inr tt, w1) ->
  schemaOf (dbExportOf (jsonStream w)) (tableName tableExport) = inr sch ->
  db_table (db w) (tableName tableExport) = inr (Some table) ->
  acceptChangedPrimaryKey options = true \/ beforeComma sch = primKeySrc table ->
  importTable options tableExport w
    = (let rows := js_map revive buffer in
       let filteredRows := filteredRowsOf options tableExport rows in
       match keysAndValues tableExport rows filteredRows return M DB Flow with
       | (keys, values) =>
           when (clearTablesBeforeImport options) (storage (table_clear table)) ;;
           bulkWrite options table values keys ;;
           advance rows ;;
           ret Continue
       end) w1.
Proof.
  intros Hrows Hwork Hnotify Hschema Htable Hkey.
  destruct (notify_fields options w) as (Hs & _ & Hd & _).
  rewrite Hnotify in Hs, Hd. simpl in Hs, Hd.
  unfold importTable.
  rewrite Hrows, (hasBatch_guard _ _ Hrows Hwork).
  rewrite (bind_inr _ _ _ _ _ Hnotify).
  unfold bind at 1. unfold getWorld at 1. cbv beta iota.
  rewrite Hs, Hd, Hschema, Htable.
  assert (Hcheck : negb (acceptChangedPrimaryKey options)
                   && negb (beforeComma sch =? primKeySrc table)%string = false).
  { destruct Hkey as [Hkey | Hkey]; rewrite Hkey; simpl; [reflexivity |].
    rewrite String.eqb_refl. apply andb_false_r. }
  rewrite Hcheck. reflexivity.
Qed.

(** The bulk write a checked batch issues, when the table does not have to
    be cleared first or the clearing succeeds. *)
Lemma importTable_written (options : ImportOptions) (tableExport : TableExport)
    (buffer : JsArray) (sch : string) (table : Table) (w w1 : World DB) :
  rows tableExport = Some buffer ->
  (complete buffer = false \/ items buffer <> []) ->
  notify options w = (inr tt, w1) ->
  schemaOf (dbExportOf (jsonStream w)) (tableName tableExport) = inr sch ->
  db_table (db w) (tableName tableExport) = inr (Some table) ->
  acceptChangedPrimaryKey options = true \/ beforeComma sch = primKeySrc table ->
  clearTablesBeforeImport options = false
    \/ (exists d', table_clear table (db w) = inr d') ->
  let rows := js_map revive buffer in
  let kv := keysAndValues tableExport rows (filteredRowsOf options tableExport rows) in
  written (snd (importTable options tableExport w))
    = {| target := tableId table; overwrite := overwriteValues options;
         values := snd kv; keys := fst kv |} :: written w.
Proof.
  intros Hrows Hwork Hnotify Hschema Htable Hkey Hclear rows kv.
  rewrite (importTable_checked _ _ _ _ _ _ _ Hrows Hwork Hnotify Hschema Htable Hkey).
  destruct (notify_fields options w) as (_ & _ & Hd & Hw).
  rewrite Hnotify in Hd, Hw. simpl in Hd, Hw.
  cbv zeta. fold rows. fold kv. destruct kv as [ks vs] eqn:Hkv. simpl.
  assert (Hcleared : exists w2,
            when (clearTablesBeforeImport options) (storage (table_clear table)) w1
              = (inr tt, w2)
            /\ written w2 = written w).
  { destruct Hclear as [Hoff | [d' Hd']].
    - rewrite Hoff. exists w1. split; [reflexivity | exact Hw].
    - destruct (clearTablesBeforeImport options); simpl.
      + unfold storage. rewrite Hd, Hd'. eexists. split; [reflexivity | exact Hw].
      + exists w1. split; [reflexivity | exact Hw]. }
  destruct Hcleared as (w2 & Hrun & Hw2).
  rewrite (bind_inr _ _ _ _ _ Hrun).
  unfold bind, bulkWrite, storage, advance, ret.
  destruct (overwriteValues options); simpl;
    match goal with
    | |- context [match ?op with inl _ => _ | inr _ => _ end] => destruct op
    end; simpl; rewrite Hw2; reflexivity.
Qed.

(** X10: a batch of an inbound table that passes the checks hands to the
    storage engine, without keys, exactly the revived rows for which the
    filter answers true, in the order of the buffer; the filter is given the
    table name and the revived value, and no key. *)
Theorem inbound_batch_writes_filtered_rows (options : ImportOptions)
    (tableExport : TableExport) (buffer : JsArray) (sch : string) (table : Table)
    (f : string -> jsval -> option jsval -> bool) (w w1 : World DB) :
  rows tableExport = Some buffer ->
  (complete buffer = false \/ items buffer <> []) ->
  notify options w = (inr tt, w1) ->
  schemaOf (dbExportOf (jsonStream w)) (tableName tableExport) = inr sch ->
  db_table (db w) (tableName tableExport) = inr (Some table) ->
  acceptChangedPrimaryKey options = true \/ beforeComma sch = primKeySrc table ->
  clearTablesBeforeImport options = false
    \/ (exists d', table_clear table (db w) = inr d') ->
  inbound tableExport = true ->
  rowFilter options = Some f ->
  written (snd (importTable options tableExport w))
    = {| target := tableId table; overwrite := overwriteValues options;
         values := filter (fun value => f (tableName tableExport) value None)
                          (map revive (items buffer));
         keys := None |} :: written w.
Proof.
  intros Hrows Hwork Hnotify Hschema Htable Hkey Hclear Hin Hf.
  rewrite (importTable_written _ _ _ _ _ _ _ Hrows Hwork Hnotify Hschema Htable
             Hkey Hclear).
  rewrite (inbound_batch_filtered options tableExport buffer f Hin Hf).
  reflexivity.
Qed.

(** X11: without a filter, a batch that passes the checks hands every row
    of the buffer to the storage engine, revived and in order: as values
    without keys for an inbound table; split into the list of first
    components as keys and the list of second components as values, of the
    same length, for a non-inbound table. *)
Theorem unfiltered_batch_writes_all_rows (options : ImportOptions)
    (tableExport : TableExport) (buffer : JsArray) (sch : string) (table : Table)
    (w w1 : World DB) :
  rows tableExport = Some buffer ->
  (complete buffer = false \/ items buffer <> []) ->
  notify options w = (inr tt, w1) ->
  schemaOf (dbExportOf (jsonStream w)) (tableName tableExport) = inr sch ->
  db_table (db w) (tableName tableExport) = inr (Some table) ->
  acceptChangedPrimaryKey options = true \/ beforeComma sch = primKeySrc table ->
  clearTablesBeforeImport options = false
    \/ (exists d', table_clear table (db w) = inr d') ->
  rowFilter options = None ->
  written (snd (importTable options tableExport w))
    = {| target := tableId table; overwrite := overwriteValues options;
         values := if inbound tableExport
                   then map revive (items buffer)
                   else map (fun row => js_index (revive row) 1) (items buffer);
         keys := if inbound tableExport
                 then None
                 else Some (map (fun row => js_index (revive row) 0) (items buffer))
      |} :: written w.
Proof.
  intros Hrows Hwork Hnotify Hschema Htable Hkey Hclear Hf.
  rewrite (importTable_written _ _ _ _ _ _ _ Hrows Hwork Hnotify Hschema Htable
             Hkey Hclear).
  unfold keysAndValues, filteredRowsOf. rewrite Hf.
  destruct (inbound tableExport); simpl; [reflexivity |].
  rewrite !map_map. reflexivity.
Qed.

(** X12: when the target has the table but the first comma-separated field
    of the exported schema is not the target's primary key, and
    [acceptChangedPrimaryKey] is off, the batch fails with
    PrimaryKeyMismatchError after the observer has been called and before
    the table is cleared or written: database, bulk writes and progress are
    untouched. *)
Theorem primary_key_mismatch_rejected (options : ImportOptions)
    (tableExport : TableExport) (buffer : JsArray) (sch : string) (table : Table)
    (w w1 : World DB) :
  rows tableExport = Some buffer ->
  (complete buffer = false \/ items buffer <> []) ->
  notify options w = (inr tt, w1) ->
  schemaOf (dbExportOf (jsonStream w)) (tableName tableExport) = inr sch ->
  db_table (db w) (tableName tableExport) = inr (Some table) ->
  acceptChangedPrimaryKey options = false ->
  beforeComma sch <> primKeySrc table ->
  importTable options tableExport w
    = (inl (PrimaryKeyMismatchError (tableName tableExport)), w1)
  /\ db w1 = db w /\ written w1 = written w /\ progress w1 = progress w.
Proof.
  intros Hrows Hwork Hnotify Hschema Htable Haccept Hkey.
  destruct (notify_fields options w) as (Hs & Hp & Hd & Hw).
  rewrite Hnotify in Hs, Hp, Hd, Hw. simpl in Hs, Hp, Hd, Hw.
  repeat split; try assumption.
  unfold importTable.
  rewrite Hrows, (hasBatch_guard _ _ Hrows Hwork).
  rewrite (bind_inr _ _ _ _ _ Hnotify).
  unfold bind at 1. unfold getWorld at 1. cbv beta iota.
  rewrite Hs, Hd, Hschema, Htable, Haccept.
  destruct (String.eqb_spec (beforeComma sch) (primKeySrc table));
    [contradiction | reflexivity].
Qed.

End Batches.

(** * Further properties of the pass and of the clean-up *)

(** The entries the inner pass steps over without a word: a buffer that is
    complete and empty. *)
Definition idle (tableExport : TableExport) : bool :=
  match rows tableExport with
  | Some buffer => complete buffer && (length (items buffer) =? 0)%nat
  | None => false
  end.


Section Passes.

Context {DB : Type} `{Collaborators DB}.

(** X14: queue entries whose buffer is complete and empty are transparent
    to the inner pass: no observer call, no lookup, no write is made for
    them, and the pass is the pass over the queue without them. *)
Theorem idle_entries_are_skipped (options : ImportOptions) (q : list TableExport)
    (w : World DB) :
  forEachTable options q w
    = forEachTable options (filter (fun t => negb (idle t)) q) w.
Proof.
  revert w. induction q as [| tableExport rest IH]; intros w; [reflexivity |].
  simpl. unfold idle at 1.
  destruct (rows tableExport) as [buffer |] eqn:Hrows.
  - destruct (complete buffer && (length (items buffer) =? 0)%nat) eqn:Hidle; simpl.
    + unfold bind, importTable. rewrite Hrows, Hidle. simpl. apply IH.
    + unfold bind. destruct (importTable options tableExport w) as [[e | [|]] w1];
        try reflexivity. apply IH.
  - simpl. unfold bind, importTable. rewrite Hrows. reflexivity.
Qed.

(** X15: the inner pass stops at the first entry that has no buffer yet:
    whatever follows that entry in the queue is not looked at in this pass,
    even if its rows are there. *)
Theorem pass_stops_at_unbuffered_entry (options : ImportOptions)
    (before after : list TableExport) (tableExport : TableExport) (w : World DB) :
  rows tableExport = None ->
  forEachTable options (before ++ tableExport :: after) w
    = forEachTable options before w.
Proof.
  intros Hrows. revert w.
  induction before as [| t rest IH]; intros w; simpl.
  - unfold bind, importTable. rewrite Hrows. reflexivity.
  - unfold bind. destruct (importTable options t w) as [[e | [|]] w1];
      try reflexivity. apply IH.
Qed.

(** X16: a turn of the loop that finds, after leading entries with complete
    buffers, an entry that has no buffer yet does not go on to pull: the
    loop fails in that turn (with the error of a batch, or with the
    TypeError of the clean-up, which reads [.complete] of the absent
    buffer), and the pending slices of the stream are left unread. *)
Theorem unbuffered_entry_fails_turn (options : ImportOptions) (fuel : nat)
    (leading rest : list TableExport) (tableExport : TableExport) (w : World DB) :
  data (dbExportOf (jsonStream w)) = Some (leading ++ tableExport :: rest) ->
  Forall completeEntry leading ->
  rows tableExport = None ->
  let outcome := importAllLoop options fuel w in
  (exists e, fst outcome = inl e)
  /\ pending (jsonStream (snd outcome)) = pending (jsonStream w).
Proof.
  intros Hqueue Hleading Hrows outcome.
  assert (Hdrop : dropCompleted (leading ++ tableExport :: rest)
                  = (inl (TypeError "complete"), tableExport :: rest)).
  { clear Hqueue. induction Hleading as [| t l (buffer & Hb & Hc) _ IH]; simpl.
    - rewrite Hrows. reflexivity.
    - rewrite Hb, Hc. exact IH. }
  assert (Hturn : (exists e, fst (turn options w) = inl e)
                  /\ pending (jsonStream (snd (turn options w)))
                     = pending (jsonStream w)).
  { unfold turn.
    pose proof (innerPass_jsonStream options w) as Hs.
    destruct (innerPass options w) as [[e | []] w1] eqn:Hpass; simpl in Hs.
    - rewrite (bind_inl _ _ _ _ _ Hpass). simpl.
      split; [eexists; reflexivity | rewrite Hs; reflexivity].
    - rewrite (bind_inr _ _ _ _ _ Hpass).
      assert (Hclean : dropLeading w1
                       = (inl (TypeError "complete"),
                          setStream (setQueue (tableExport :: rest) (jsonStream w1)) w1)).
      { unfold dropLeading. rewrite Hs, Hqueue, Hdrop. reflexivity. }
      rewrite (bind_inl _ _ _ _ _ Hclean). simpl.
      split; [eexists; reflexivity | rewrite Hs; reflexivity]. }
  destruct Hturn as [[e He] Hp].
  unfold outcome.
  destruct (turn options w) as [r w'] eqn:Hrun. simpl in He, Hp. subst r.
  destruct fuel; simpl; rewrite (bind_inl _ _ _ _ _ Hrun); simpl;
    (split; [eexists; reflexivity | exact Hp]).
Qed.

(** X17: an export whose table queue never appears (the input ends before
    [data.data] is parsed) can pass the loader, but [importInto] does not
    succeed on it and writes nothing: past the global checks and the first
    observer call the loop fails on iterating the absent queue. *)
Theorem export_without_queue_fails (d : DB) (exportedData : ExportedData)
    (options : ImportOptions) :
  data (dbExportOf (loadedStream exportedData (chunkSize options))) = None ->
  let outcome := importInto d exportedData options in
  (exists e, fst outcome = inl e)
  /\ written (snd outcome) = []
  /\ db (snd outcome) = d.
Proof.
  intros Hqueue outcome. unfold outcome, importInto, loadUntilWeGotEnoughData.
  set (stream := loadedStream exportedData (chunkSize options)) in *.
  destruct (validateHeader VERSION (result stream));
    [repeat split; eexists; reflexivity |].
  destruct (negb (acceptNameDiff options) && _);
    [repeat split; eexists; reflexivity |].
  destruct (negb (acceptVersionDiff options) && _);
    [repeat split; eexists; reflexivity |].
  destruct (tables (dbExportOf stream)) as [ts |];
    [| repeat split; eexists; reflexivity].
  set (w1 := setProgress (initialProgress ts) _).
  assert (Hs1 : jsonStream w1 = stream) by reflexivity.
  assert (Hw1 : written w1 = []) by reflexivity.
  assert (Hd1 : db w1 = d) by reflexivity.
  clearbody w1.
  destruct (notify_fields options w1) as (Hs2 & _ & Hd2 & Hw2).
  destruct (notify options w1) as [[e | []] w2] eqn:Hnotify;
    simpl in Hs2, Hd2, Hw2.
  { rewrite (bind_inl _ _ _ _ _ Hnotify). simpl.
    repeat split; [eexists; reflexivity | congruence | congruence]. }
  rewrite (bind_inr _ _ _ _ _ Hnotify).
  assert (Hpass : innerPass options w2 = (inl (TypeError "iterator"), w2)).
  { unfold innerPass, bind, getWorld. rewrite Hs2, Hs1, Hqueue. reflexivity. }
  assert (Hloop : importAll options w2 = (inl (TypeError "iterator"), w2)).
  { unfold importAll. destruct (length _); simpl; unfold turn;
      rewrite (bind_inl _ _ _ _ _ (bind_inl _ _ _ _ _ Hpass)); reflexivity. }
  destruct (noTransaction options).
  - rewrite (bind_inl _ _ _ _ _ Hloop). simpl.
    repeat split; [eexists; reflexivity | congruence | congruence].
  - assert (Htx : transaction (importAll options) w2
                  = (inl (TypeError "iterator"), setDb (db w2) w2)).
    { unfold transaction. rewrite Hloop. reflexivity. }
    rewrite (bind_inl _ _ _ _ _ Htx). simpl.
    repeat split; [eexists; reflexivity | congruence | congruence].
Qed.

End Passes.

(** * Further properties of the import loop *)

Section Turns.

Context {DB : Type} `{Collaborators DB}.

(** A turn without its closing test. *)
Definition turnBody (options : ImportOptions) : M DB unit :=
  innerPass options ;;
  dropLeading ;;
  more <- streamOpen ;;
  when more (pullMore options).

Lemma turn_body (options : ImportOptions) (w : World DB) :
  turn options w = (turnBody options ;; streamOpen) w.
Proof.
  unfold turn, turnBody, bind.
  destruct (innerPass options w) as [[e | []] w1]; [reflexivity |].
  destruct (dropLeading w1) as [[e | []] w2]; [reflexivity |].
  destruct (streamOpen w2) as [[e | more] w3]; [reflexivity |].
  destruct (when more (pullMore options) w3) as [[e | []] w4]; reflexivity.
Qed.

(** The answer of a turn is the state of the stream it ends in. *)
Lemma turn_again (options : ImportOptions) (w w' : World DB) (again : bool) :
  turn options w = (inr again, w') ->
  again = negb (done (jsonStream w')) && negb (eof (jsonStream w')).
Proof.
  rewrite turn_body. unfold bind.
  destruct (turnBody options w) as [[e | []] w1]; [discriminate |].
  unfold streamOpen. intros [= <- <-]. reflexivity.
Qed.

Lemma turn_pulls_one (options : ImportOptions) (w w' : World DB) :
  turn options w = (inr true, w') ->
  exists c, pending (jsonStream w) = c :: pending (jsonStream w').
Proof.
  unfold turn, bind. intros Hturn.
  pose proof (innerPass_jsonStream options w) as Hpass.
  destruct (innerPass options w) as [[e | []] w1]; [discriminate |].
  simpl in Hpass.
  pose proof (dropLeading_pending w1) as Hdrop.
  destruct (dropLeading w1) as [[e | []] w2]; [discriminate |].
  simpl in Hdrop. rewrite Hpass in Hdrop.
  unfold streamOpen, pullMore, when, ret, eof, done, pull in Hturn.
  destruct (parserDone (jsonStream w2)) eqn:Hdone; simpl in Hturn.
  - rewrite Hdone in Hturn. simpl in Hturn. discriminate.
  - destruct (pending (jsonStream w2)) as [| c rest] eqn:Hpending; simpl in Hturn.
    + rewrite Hdone, Hpending in Hturn. simpl in Hturn. discriminate.
    + injection Hturn as _ Hw'. subst w'. simpl. rewrite Hpending.
      exists c. simpl. symmetry. exact Hdrop.
Qed.

(** X18: the loop of [importAll] ends.  A turn that is followed by another
    turn has read exactly one of the pending slices, so there are at most as
    many further turns as slices; giving the loop any larger bound on its
    turns produces the same outcome. *)
Theorem import_loop_terminates (options : ImportOptions) (w : World DB) :
  (forall w', turn options w = (inr true, w') ->
     exists c, pending (jsonStream w) = c :: pending (jsonStream w'))
  /\ (forall bound, (length (pending (jsonStream w)) <= bound)%nat ->
        importAllLoop options bound w = importAll options w).
Proof.
  split.
  - intros w'. apply turn_pulls_one.
  - intros bound Hbound. unfold importAll.
    apply importAllLoop_fuel; [exact Hbound | apply Nat.le_refl].
Qed.

Lemma importAllLoop_exit (options : ImportOptions) (fuel : nat) (w w' : World DB) :
  (length (pending (jsonStream w)) <= fuel)%nat ->
  importAllLoop options fuel w = (inr tt, w') ->
  done (jsonStream w') = true \/ eof (jsonStream w') = true.
Proof.
  revert w. induction fuel as [| fuel IH]; intros w Hfuel; simpl; unfold bind;
    destruct (turn options w) as [[e | again] w1] eqn:Hturn; try discriminate;
    destruct again.
  - apply turn_consumes in Hturn. lia.
  - intros [= <-]. apply turn_again in Hturn.
    destruct (done (jsonStream w1)); [left; reflexivity |].
    destruct (eof (jsonStream w1)); [right; reflexivity | discriminate].
  - apply IH. apply turn_consumes in Hturn. lia.
  - intros [= <-]. apply turn_again in Hturn.
    destruct (done (jsonStream w1)); [left; reflexivity |].
    destruct (eof (jsonStream w1)); [right; reflexivity | discriminate].
Qed.

(** X19: when [importAll] returns normally, the stream reports [done()] or
    [eof()]: the loop is not left for any other reason than an error. *)
Theorem import_loop_exit (options : ImportOptions) (w w' : World DB) :
  importAll options w = (inr tt, w') ->
  done (jsonStream w') = true \/ eof (jsonStream w') = true.
Proof.
  unfold importAll. apply importAllLoop_exit. apply Nat.le_refl.
Qed.

(** X20: when at most one slice is still pending, [importAll] makes a
    single inner pass and clean-up, then pulls that slice if the parser is
    not done, and returns.  No inner pass follows the pull that exhausts the
    input: rows that arrive with the last slice are not written. *)
Theorem last_pull_is_not_processed (options : ImportOptions) (w : World DB) :
  (length (pending (jsonStream w)) <= 1)%nat ->
  importAll options w = turnBody options w.
Proof.
  intros Hone.
  assert (Hturn : forall w', turn options w <> (inr true, w')).
  { intros w' Hturn.
    pose proof (turn_again _ _ _ _ Hturn) as Hagain.
    apply turn_consumes in Hturn.
    unfold eof in Hagain.
    destruct (pending (jsonStream w')); [| simpl in Hturn; lia].
    rewrite andb_false_r in Hagain. discriminate. }
  assert (Hloop : forall fuel, importAllLoop options fuel w = turnBody options w).
  { intros fuel.
    assert (Hshape : importAllLoop options fuel w
                     = match turn options w with
                       | (inl e, w') => (inl e, w')
                       | (inr true, w') =>
                           match fuel with
                           | O => (inr tt, w')
                           | S fuel' => importAllLoop options fuel' w'
                           end
                       | (inr false, w') => (inr tt, w')
                       end).
    { destruct fuel; simpl; unfold bind;
        destruct (turn options w) as [[e | [|]] w']; reflexivity. }
    rewrite Hshape.
    destruct (turn options w) as [[e | [|]] w'] eqn:Hrun.
    - rewrite turn_body in Hrun. unfold bind in Hrun.
      destruct (turnBody options w) as [[e' | []] w1]; [| discriminate].
      injection Hrun as <- <-. reflexivity.
    - exfalso. exact (Hturn w' eq_refl).
    - rewrite turn_body in Hrun. unfold bind, streamOpen in Hrun.
      destruct (turnBody options w) as [[e' | []] w1]; [discriminate |].
      injection Hrun as _ <-. reflexivity. }
  unfold importAll. apply Hloop.
Qed.

End Turns.

(** * Rows counted and rows written *)

(** The number of values handed to the storage engine over all bulk writes. *)
Definition valuesWritten (calls : list WriteCall) : Z :=
  fold_right (fun call acc => Z.of_nat (length (values call)) + acc) 0 calls.

Lemma filter_length_bound {A : Type} (p : A -> bool) (l : list A) :
  (length (filter p l) <= length l)%nat.
Proof.
  induction l as [| x l IH]; simpl; [lia |].
  destruct (p x); simpl; lia.
Qed.

Section Accounting.

Context {DB : Type} `{Collaborators DB}.

(** An invariant that the body of the [for] loop keeps whenever it
    returns is kept by [importAll] whenever it returns. *)
Section TableInvariant.

Variable Inv : World DB -> Prop.
Variable options : ImportOptions.

Definition returnsIn {A : Type} (m : M DB A) : Prop :=
  hoare Inv m (fun _ => Inv) (fun _ _ => True).

Hypothesis Inv_importTable : forall t, returnsIn (importTable options t).
Hypothesis Inv_setStream : forall s w, Inv w -> Inv (setStream s w).

Lemma returnsIn_forEachTable q : returnsIn (forEachTable options q).
Proof.
  induction q as [| t rest IH]; simpl.
  - intros w Hw. exact Hw.
  - eapply hoare_bind; [apply Inv_importTable |].
    intros [|]; [exact IH | intros w Hw; exact Hw].
Qed.

Lemma returnsIn_importAll : returnsIn (importAll options).
Proof.
  assert (Hpass : returnsIn (innerPass options)).
  { unfold innerPass.
    eapply hoare_bind; [apply hoare_getWorld | intros w0].
    apply (hoare_weaken Inv); [intros w [Hw _]; exact Hw |].
    destruct (data _); [apply returnsIn_forEachTable | intros w Hw; exact I]. }
  assert (Hdrop : returnsIn dropLeading).
  { intros w Hw. unfold dropLeading.
    destruct (data _) as [q |]; [| exact I].
    destruct (dropCompleted q) as [[e | []] q']; [exact I |].
    apply Inv_setStream, Hw. }
  assert (Hturn : hoare Inv (turn options) (fun _ => Inv) (fun _ _ => True)).
  { unfold turn.
    apply (hoare_bind _ _ _ (fun _ => Inv)); [exact Hpass | intros _].
    apply (hoare_bind _ _ _ (fun _ => Inv)); [exact Hdrop | intros _].
    apply (hoare_bind _ _ _ (fun _ => Inv)); [intros w Hw; exact Hw | intros more].
    apply (hoare_bind _ _ _ (fun _ => Inv)); [| intros _ w Hw; exact Hw].
    destruct more; simpl; [| intros w Hw; exact Hw].
    intros w Hw. apply Inv_setStream, Hw. }
  assert (Hloop : forall fuel, returnsIn (importAllLoop options fuel)).
  { induction fuel as [| fuel IH]; simpl;
      (apply (hoare_bind _ _ _ (fun _ => Inv)); [exact Hturn | intros [|]]);
      try (intros w Hw; exact Hw); exact IH. }
  intros w Hw. apply Hloop, Hw.
Qed.

End TableInvariant.

(** The rows counted cover the values written so far, and equal them when
    no filter is configured. *)
Definition counted (options : ImportOptions) (w : World DB) : Prop :=
  valuesWritten (written w) <= completedRows (progress w)
  /\ (rowFilter options = None ->
      valuesWritten (written w) = completedRows (progress w)).

Lemma keysAndValues_length (options : ImportOptions) (tableExport : TableExport)
    (buffer : JsArray) :
  let rows := js_map revive buffer in
  let vs := snd (keysAndValues tableExport rows
                   (filteredRowsOf options tableExport rows)) in
  (length vs <= length (items rows))%nat
  /\ (rowFilter options = None -> length vs = length (items rows)).
Proof.
  unfold keysAndValues, filteredRowsOf.
  destruct (inbound tableExport); simpl.
  - destruct (rowFilter options) as [f |]; simpl.
    + split; [apply filter_length_bound | discriminate].
    + split; [lia | reflexivity].
  - rewrite !length_map. split; [lia | reflexivity].
Qed.

Lemma importTable_counted (options : ImportOptions) (t : TableExport) :
  hoare (counted options) (importTable options t) (fun _ => counted options)
    (fun _ _ => True).
Proof.
  intros w Hw. unfold importTable.
  destruct (rows t) as [buffer |]; [| exact Hw].
  destruct (complete buffer && _); [exact Hw |].
  unfold bind at 1.
  destruct (notify_fields options w) as (_ & Hp1 & _ & Hw1).
  destruct (notify options w) as [[e | []] w1]; [exact I |].
  simpl in Hp1, Hw1.
  unfold bind at 1. unfold getWorld at 1. cbv beta iota.
  destruct (db_table _ _) as [e | [table |]]; [exact I | |];
    (destruct (schemaOf _ _) as [e | sch]; [exact I |]);
    [| destruct (negb (acceptMissingTables options));
       [exact I | unfold counted; simpl; rewrite Hp1, Hw1; exact Hw]].
  destruct (negb (acceptChangedPrimaryKey options) && _); [exact I |].
  pose proof (keysAndValues_length options t buffer) as Hlen. cbv zeta in Hlen.
  destruct (keysAndValues _ _ _) as [ks vs]. simpl in Hlen.
  rewrite length_map in Hlen.
  unfold bind at 1.
  destruct (storage_fields (table_clear table) w1) as (_ & Hp2 & _ & Hw2).
  assert (Hclear : forall w2 r,
            when (clearTablesBeforeImport options) (storage (table_clear table)) w1
              = (r, w2) ->
            progress w2 = progress w1 /\ written w2 = written w1).
  { intros w2 r. destruct (clearTablesBeforeImport options); simpl.
    - intros Hrun. rewrite Hrun in Hp2, Hw2. simpl in Hp2, Hw2. split; assumption.
    - intros [= _ <-]. split; reflexivity. }
  destruct (when _ _ w1) as [[e | []] w2] eqn:Hrun; [exact I |].
  destruct (Hclear _ _ eq_refl) as [Hp2' Hw2'].
  unfold bind, bulkWrite, storage, advance, ret.
  destruct (overwriteValues options); simpl;
    match goal with
    | |- context [match ?op with inl _ => _ | inr _ => _ end] => destruct op
    end; simpl; try exact I;
    unfold counted; simpl; rewrite length_map, Hp2', Hw2', Hp1, Hw1;
    destruct Hw as [Hle Heq]; destruct Hlen as [Hlen Hleneq];
    (split; [lia | intros Hnone; rewrite (Heq Hnone), (Hleneq Hnone); lia]).
Qed.

(** X21: when an import succeeds, the final [completedRows] is at least the
    number of values handed to the storage engine over all its bulk writes,
    and without a filter it is exactly that number: every row counted was
    handed to a write, and a row written again on a later pass is counted
    again. *)
Theorem completed_rows_count_written_values (d : DB) (exportedData : ExportedData)
    (options : ImportOptions) :
  let outcome := importInto d exportedData options in
  fst outcome = inr tt ->
  valuesWritten (written (snd outcome)) <= completedRows (progress (snd outcome))
  /\ (rowFilter options = None ->
      valuesWritten (written (snd outcome))
        = completedRows (progress (snd outcome))).
Proof.
  intros outcome. unfold outcome, importInto.
  destruct (loadUntilWeGotEnoughData _ _ _) as [e | stream]; [discriminate |].
  destruct (negb (acceptNameDiff options) && _); [discriminate |].
  destruct (negb (acceptVersionDiff options) && _); [discriminate |].
  destruct (tables (dbExportOf stream)) as [ts |]; [| discriminate].
  set (w1 := setProgress (initialProgress ts) _).
  assert (Hw1 : counted options w1) by (split; [simpl; lia | reflexivity]).
  clearbody w1.
  assert (Hnotify : hoare (counted options) (notify options)
                      (fun _ => counted options) (fun _ _ => True)).
  { intros w Hw. destruct (notify_fields options w) as (_ & Hp & _ & Hwr).
    destruct (notify options w) as [[e | []] w']; [exact I |].
    simpl in Hp, Hwr. unfold counted. rewrite Hp, Hwr. exact Hw. }
  assert (Hall : hoare (counted options) (importAll options)
                   (fun _ => counted options) (fun _ _ => True)).
  { apply returnsIn_importAll.
    - intros t. apply importTable_counted.
    - intros s w Hw. exact Hw. }
  assert (Hbody : hoare (counted options)
                    (if noTransaction options
                     then importAll options
                     else transaction (importAll options))
                    (fun _ => counted options) (fun _ _ => True)).
  { destruct (noTransaction options); [exact Hall |].
    intros w Hw. specialize (Hall w Hw). unfold transaction.
    destruct (importAll options w) as [[e | []] w']; [exact I | exact Hall]. }
  assert (Hrun : hoare (counted options) (mainRun options)
                   (fun _ => counted options) (fun _ _ => True)).
  { unfold mainRun.
    apply (hoare_bind _ _ _ (fun _ => counted options)); [exact Hnotify | intros _].
    apply (hoare_bind _ _ _ (fun _ => counted options)); [exact Hbody | intros _].
    apply (hoare_bind _ _ _ (fun _ => counted options)); [| intros _; exact Hnotify].
    intros w Hw. exact Hw. }
  specialize (Hrun w1 Hw1). unfold mainRun in Hrun.
  destruct ((notify options ;; _) w1) as [[e | []] w']; [discriminate |].
  intros _. exact Hrun.
Qed.

End Accounting.

(** * importDB *)

Module Static.

(** [StaticImportOptions]: the options [importDB] takes. *)
Record Options : Type := mkOptions {
  noTransaction : bool;
  numKilobytesPerChunk : option Z;
  filter : option (string -> jsval -> option jsval -> bool);
  progressCallback : option (nat -> ImportProgress -> bool)
}.

End Static.

(** The options object of [importDB] as [importInto] reads it: the fields
    it does not have are [undefined], that is off. *)
Definition asImportOptions (options : Static.Options) : ImportOptions :=
  {| acceptMissingTables := false; acceptVersionDiff := false;
     acceptNameDiff := false; acceptChangedPrimaryKey := false;
     overwriteValues := false; clearTablesBeforeImport := false;
     noTransaction := Static.noTransaction options;
     numKilobytesPerChunk := Static.numKilobytesPerChunk options;
     rowFilter := Static.filter options;
     progressCallback := Static.progressCallback options |}.

(** [new Dexie(dbExport.databaseName)] followed by
    [db.version(dbExport.databaseVersion).stores(extractDbSchema(dbExport))]:
    Dexie and the helper are imported by [import.ts]; declaring the stores may
    be rejected. *)
Class Factory (DB : Type) : Type := {
  newDatabase : DatabaseExport -> Res DB
}.

Section ImportDB.

Context {DB : Type} `{Collaborators DB} `{Factory DB}.

(** [importDB], lines 35-44: the outcome of the loader or of the factory
    when one of them fails, and else that of [importInto] on the new
    database, with the state the run ends in. *)
Definition importDB (exportedData : ExportedData) (options : Static.Options)
    : Res (Res unit * World DB) :=
  let CHUNK_SIZE := chunkSize (asImportOptions options) in
  match loadUntilWeGotEnoughData VERSION exportedData CHUNK_SIZE with
  | inl e => inl e
  | inr stream =>
      let dbExport := dbExportOf stream in
      match newDatabase dbExport with
      | inl e => inl e
      | inr d => inr (importInto d (Stream stream) (asImportOptions options))
      end
  end.

(** What the loader has checked on the header it accepts. *)
Lemma validateHeader_ok (V : Z) (file : Envelope) :
  validateHeader V file = inr tt ->
  exists d n v ts,
    envData file = Some d
    /\ databaseName d = Some n /\ n <> ""
    /\ databaseVersion d = Some v /\ v <> 0
    /\ tables d = Some ts.
Proof.
  unfold validateHeader.
  destruct (negb _); [discriminate |].
  destruct (match formatVersion file with Some _ => _ | None => _ end);
    [discriminate |].
  destruct (envData file) as [d |]; [| discriminate].
  unfold truthyStr, truthyNum.
  destruct (databaseName d) as [n |] eqn:Hn; simpl; [| discriminate].
  destruct (String.eqb_spec n ""); simpl; [discriminate |].
  destruct (databaseVersion d) as [v |] eqn:Hv; simpl; [| discriminate].
  destruct (Z.eqb_spec v 0); simpl; [discriminate |].
  destruct (tables d) as [ts |] eqn:Hts; simpl; [| discriminate].
  intros _. exists d, n, v, ts. repeat split; assumption.
Qed.

(** X22: [importDB] composes the loader, the factory and [importInto] so
    that nothing is loaded or checked twice in vain.  When the loader
    accepts the header and the factory yields a database that carries the
    name and the version of the export, the second run of the loader inside
    [importInto] pulls nothing, the name and version checks pass, and the
    outcome of [importDB] is that of the import proper on the new
    database, with the manifest's totals in the progress object. *)
Theorem importDB_runs_import_on_new_database (exportedData : ExportedData)
    (options : Static.Options) (stream : JsonStream) (d : DB) :
  loadUntilWeGotEnoughData VERSION exportedData
    (chunkSize (asImportOptions options)) = inr stream ->
  newDatabase (dbExportOf stream) = inr d ->
  databaseName (dbExportOf stream) = Some (db_name d) ->
  databaseVersion (dbExportOf stream) = Some (db_verno d) ->
  exists ts,
    tables (dbExportOf stream) = Some ts
    /\ importDB exportedData options
       = inr (mainRun (asImportOptions options)
                (setProgress (initialProgress ts) (startWorld d stream))).
Proof.
  intros Hload Hnew Hname Hversion.
  assert (Hfields : exists ts, tables (dbExportOf stream) = Some ts).
  { unfold loadUntilWeGotEnoughData in Hload.
    destruct (validateHeader VERSION _) as [e | []] eqn:Hvalid; [discriminate |].
    injection Hload as <-.
    destruct (validateHeader_ok _ _ Hvalid) as (e & n & v & ts & He & _ & _ & _ & _ & Hts).
    exists ts. unfold dbExportOf. rewrite He. exact Hts. }
  destruct Hfields as [ts Hts]. exists ts. split; [exact Hts |].
  unfold importDB. rewrite Hload, Hnew. cbv zeta.
  unfold importInto.
  rewrite (loader_idempotent _ _ _ _ _ Hload).
  rewrite Hname, Hversion, Hts, String.eqb_refl, Z.eqb_refl. simpl.
  assert (Hsame : loadedStream (Stream stream) (chunkSize (asImportOptions options))
                  = stream).
  { pose proof (loader_idempotent _ _ _ (chunkSize (asImportOptions options)) _ Hload)
      as Hagain.
    unfold loadUntilWeGotEnoughData in Hagain.
    destruct (validateHeader VERSION _); [discriminate |].
    injection Hagain as Hagain. exact Hagain. }
  rewrite Hsame. reflexivity.
Qed.

End ImportDB.

(** * Further runs on concrete exports *)

(** A factory on the in-memory engine: a database with the name and the
    version of the export and an empty table per manifest entry, keyed by the
    first field of its schema. *)
#[global] Instance memoryFactory : Factory Memory.Db := {
  newDatabase := fun dbExport =>
    inr (Memory.mkDb
           (match databaseName dbExport with Some n => n | None => "" end)
           (match databaseVersion dbExport with Some v => v | None => 0 end)
           (map (fun t => Memory.mkStored (mkTable (name t) (beforeComma (schema t))) [])
                (match tables dbExport with Some ts => ts | None => [] end)))
}.

(** Table [t] cut in two slices: the second brings the second row and the
    end of the document. *)
Definition twoSlices : list Chunk :=
  [header [mkSchema "t" "id" 2] ++ [OpenTable "t" true; OpenRows; PushRow (record 1)];
   [PushRow (record 2); CloseRows; CloseRoot]].

(** An export that ends right after its manifest. *)
Definition withoutQueue : list Chunk :=
  [[SetFormatName "dexie"; SetFormatVersion 1; OpenExport;
    SetDatabaseName "db1"; SetDatabaseVersion 1; OpenTables;
    PushTableSchema (mkSchema "t" "id" 2)]].

(** Table [t] whole, then the first slice ends inside the entry of a table
    [u], before its rows. *)
Definition cutBeforeRows : list Chunk :=
  [header [mkSchema "t" "id" 2; mkSchema "u" "id" 1]
   ++ wholeTable "t" true [record 1; record 2] ++ [OpenTable "u" true];
   [OpenRows; PushRow (record 3); CloseRows; CloseRoot]].

(** Keep every value but [{id: 1}]. *)
Definition notRecordOne (tbl : string) (value : jsval) (key : option jsval) : bool :=
  negb (jsval_eqb value (record 1)).

Definition filteringValues : ImportOptions :=
  {| acceptMissingTables := false; acceptVersionDiff := false;
     acceptNameDiff := false; acceptChangedPrimaryKey := false;
     overwriteValues := false; clearTablesBeforeImport := false;
     noTransaction := false; numKilobytesPerChunk := None;
     rowFilter := Some notRecordOne; progressCallback := None |}.

(** Database "db1" whose table [t] is keyed by [key]. *)
Definition dbOtherKey : Memory.Db :=
  Memory.mkDb "db1" 1 [Memory.mkStored (mkTable "t" "key") []].

Lemma snapshots_share_totals_witness :
  Forall (fun call => totalsOf [mkSchema "t" "id" 2] (fst call))
    (observed (snd (importInto db1 (Blob threeSlices) withOverwrite))).
Proof.
  apply (snapshots_share_totals db1 (Blob threeSlices) withOverwrite
           (loadedStream (Blob threeSlices) size)).
  - reflexivity.
  - reflexivity.
Defined.

Lemma completed_rows_never_decrease_witness :
  completedRows (mkProgress 1 0 (Some 2) 1 false)
    <= completedRows (mkProgress 1 0 (Some 2) 3 true).
Proof.
  apply (completed_rows_never_decrease db1 (Blob threeSlices) withOverwrite
           []
           [(mkProgress 1 0 (Some 2) 0 false, false);
            (mkProgress 1 0 (Some 2) 0 false, false)]
           (mkProgress 1 0 (Some 2) 1 false, false)
           (mkProgress 1 0 (Some 2) 3 true, false)).
  reflexivity.
Defined.

Lemma done_is_reported_last_witness :
  exists p earlier,
    observed (snd (importInto db1 (Blob oneSlice) withOverwrite))
      = (p, false) :: earlier
    /\ isDone p = true.
Proof.
  apply (done_is_reported_last db1 (Blob oneSlice) withOverwrite).
  - reflexivity.
  - discriminate.
Defined.

Lemma inbound_batch_writes_filtered_rows_witness :
  written (snd (importTable filteringValues (entry "t" [record 1; record 2])
                  (loaded db1 oneSlice)))
    = [mkWrite "t" false [record 2] None].
Proof.
  etransitivity.
  { apply (inbound_batch_writes_filtered_rows filteringValues
             (entry "t" [record 1; record 2]) (mkArray [record 1; record 2] true)
             "id" (mkTable "t" "id") notRecordOne
             (loaded db1 oneSlice) (loaded db1 oneSlice)).
    - reflexivity.
    - right. discriminate.
    - reflexivity.
    - reflexivity.
    - reflexivity.
    - right. reflexivity.
    - left. reflexivity.
    - reflexivity.
    - reflexivity. }
  reflexivity.
Defined.

Lemma unfiltered_batch_writes_all_rows_witness :
  written (snd (importTable defaultOptions
                  (mkTableExport "kv" false
                     (Some (mkArray [JArr [JNum 1; JStr "a"]; JArr [JNum 2; JStr "b"]]
                              true)))
                  (loaded dbKv outbound)))
    = [mkWrite "kv" false [JStr "a"; JStr "b"] (Some [JNum 1; JNum 2])].
Proof.
  etransitivity.
  { apply (unfiltered_batch_writes_all_rows defaultOptions
             (mkTableExport "kv" false
                (Some (mkArray [JArr [JNum 1; JStr "a"]; JArr [JNum 2; JStr "b"]] true)))
             (mkArray [JArr [JNum 1; JStr "a"]; JArr [JNum 2; JStr "b"]] true)
             "" (mkTable "kv" "")
             (loaded dbKv outbound) (loaded dbKv outbound)).
    - reflexivity.
    - right. discriminate.
    - reflexivity.
    - reflexivity.
    - reflexivity.
    - right. reflexivity.
    - left. reflexivity.
    - reflexivity. }
  reflexivity.
Defined.

Lemma primary_key_mismatch_rejected_witness :
  importTable defaultOptions (entry "t" [record 1; record 2])
    (loaded dbOtherKey oneSlice)
    = (inl (PrimaryKeyMismatchError "t"), loaded dbOtherKey oneSlice).
Proof.
  apply (primary_key_mismatch_rejected defaultOptions
           (entry "t" [record 1; record 2]) (mkArray [record 1; record 2] true)
           "id" (mkTable "t" "key")
           (loaded dbOtherKey oneSlice) (loaded dbOtherKey oneSlice)).
  - reflexivity.
  - right. discriminate.
  - reflexivity.
  - reflexivity.
  - reflexivity.
  - reflexivity.
  - discriminate.
Defined.

Lemma pass_stops_at_unbuffered_entry_witness :
  forEachTable defaultOptions
    [entry "t" [record 1; record 2]; mkTableExport "u" true None;
     entry "t" [record 3]]
    (loaded db1 cutBeforeRows)
    = forEachTable defaultOptions [entry "t" [record 1; record 2]]
        (loaded db1 cutBeforeRows).
Proof.
  apply (pass_stops_at_unbuffered_entry defaultOptions
           [entry "t" [record 1; record 2]] [entry "t" [record 3]]
           (mkTableExport "u" true None)).
  reflexivity.
Defined.

(** The first slice ends before the rows of [u]: the first turn writes [t]
    and then fails in the clean-up; the second slice is never read. *)
Lemma unbuffered_entry_fails_turn_witness :
  (exists e, fst (importAllLoop defaultOptions 1 (loaded db1 cutBeforeRows)) = inl e)
  /\ pending (jsonStream (snd (importAllLoop defaultOptions 1
                                 (loaded db1 cutBeforeRows))))
     = [[OpenRows; PushRow (record 3); CloseRows; CloseRoot]].
Proof.
  apply (unbuffered_entry_fails_turn defaultOptions 1
           [entry "t" [record 1; record 2]] [] (mkTableExport "u" true None)
           (loaded db1 cutBeforeRows)).
  - reflexivity.
  - constructor; [| constructor].
    exists (mkArray [record 1; record 2] true). split; reflexivity.
  - reflexivity.
Defined.

Lemma export_without_queue_fails_witness :
  loadUntilWeGotEnoughData 1 (Blob withoutQueue) size
    = inr (loadedStream (Blob withoutQueue) size)
  /\ (exists e, fst (importInto db1 (Blob withoutQueue) defaultOptions) = inl e).
Proof.
  split; [reflexivity |].
  apply (export_without_queue_fails db1 (Blob withoutQueue) defaultOptions).
  reflexivity.
Defined.

Lemma import_loop_terminates_witness :
  importAllLoop withOverwrite 7 (loaded db1 threeSlices)
    = importAll withOverwrite (loaded db1 threeSlices).
Proof.
  apply (import_loop_terminates withOverwrite (loaded db1 threeSlices)).
  simpl. lia.
Defined.

Lemma import_loop_exit_witness :
  done (jsonStream (snd (importAll withOverwrite (loaded db1 threeSlices)))) = true
  \/ eof (jsonStream (snd (importAll withOverwrite (loaded db1 threeSlices)))) = true.
Proof.
  apply (import_loop_exit withOverwrite (loaded db1 threeSlices)
           (snd (importAll withOverwrite (loaded db1 threeSlices)))).
  vm_compute. reflexivity.
Defined.

(** The second of two slices brings row 2: the import succeeds having
    written row 1 only. *)
Lemma last_pull_is_not_processed_witness :
  importAll defaultOptions (loaded db1 twoSlices)
    = turnBody defaultOptions (loaded db1 twoSlices)
  /\ fst (importInto db1 (Blob twoSlices) defaultOptions) = inr tt
  /\ written (snd (importInto db1 (Blob twoSlices) defaultOptions))
     = [mkWrite "t" false [record 1] None].
Proof.
  split; [| split; reflexivity].
  apply (last_pull_is_not_processed defaultOptions (loaded db1 twoSlices)).
  simpl. lia.
Defined.

Lemma completed_rows_count_written_values_witness :
  valuesWritten (written (snd (importInto db1 (Blob threeSlices) withOverwrite)))
    = completedRows (progress (snd (importInto db1 (Blob threeSlices) withOverwrite))).
Proof.
  apply (completed_rows_count_written_values db1 (Blob threeSlices) withOverwrite).
  - reflexivity.
  - reflexivity.
Defined.

Lemma importDB_runs_import_on_new_database_witness :
  exists ts,
    tables (dbExportOf (loadedStream (Blob oneSlice) size)) = Some ts
    /\ importDB (Blob oneSlice) (Static.mkOptions false None None None)
       = inr (mainRun defaultOptions
                (setProgress (initialProgress ts)
                   (startWorld db1 (loadedStream (Blob oneSlice) size)))).
Proof.
  apply (importDB_runs_import_on_new_database (Blob oneSlice)
           (Static.mkOptions false None None None)
           (loadedStream (Blob oneSlice) size) db1).
  - reflexivity.
  - reflexivity.
  - reflexivity.
  - reflexivity.
Defined.
